(** * lerp.mesh: query broadcasting, evaluation, derivative and resampling

    A shallow embedding of [lerp/mesh.py].  Doubles are binary64 primitive
    floats, Python exceptions are values of [exn], and every method of
    [Mesh] that can raise returns a [res].  The native library
    [libNDTable] is not part of the Python sources: its pointwise
    routines are section variables, and the vectorised loops around them
    are written out from the specification of the evaluation engine. *)

From Stdlib Require Import Floats.PrimFloat ZArith Lia.
From stdpp Require Import base option list strings gmap.

Local Open Scope Z_scope.
Local Open Scope nat_scope.

(** ** Exceptions and results *)

Inductive exn :=
| AssertionError (msg : string)
| IndexError
| KeyError (key : string)
| TypeError
| ValueError
| Undefined. (* a native read past the end of a buffer *)

Inductive res (A : Type) :=
| Ok (a : A)
| Raise (e : exn).
Arguments Ok {A} a.
Arguments Raise {A} e.

Definition bind {A B} (c : res A) (k : A -> res B) : res B :=
  match c with
  | Ok a => k a
  | Raise e => Raise e
  end.

Notation "'do' x <- c ; k" := (bind c (fun x => k))
  (at level 10, x name, c at level 100, k at level 200).

Fixpoint traverse {A B} (f : A -> res B) (l : list A) : res (list B) :=
  match l with
  | [] => Ok []
  | a :: l' => do b <- f a; do bs <- traverse f l'; Ok (b :: bs)
  end.

(** ** Arrays and Python values *)

(** A C-contiguous float64 array: its shape and its buffer in row-major
    order.  A Python list of numbers is the one-axis array [vec l]. *)
Record ndarray := NDArray { shape : list nat; flat : list float }.

Definition vec (l : list float) : ndarray := NDArray [length l] l.

Definition prod_list (l : list nat) : nat := foldr Nat.mul 1 l.

Definition ndarray_wf (a : ndarray) : Prop :=
  length (flat a) = prod_list (shape a).

(** What a query argument or a result can be: a bare number, or an array
    (anything that has [__len__]). *)
Inductive pyval :=
| PyFloat (v : float)
| PyArray (a : ndarray).

(** [len(a)]: the first axis; an array without axes has no length. *)
Definition py_len (a : ndarray) : res nat :=
  match shape a with
  | [] => Raise TypeError
  | n :: _ => Ok n
  end.

(** [max(dims)] on a sequence of lengths. *)
Definition py_max (l : list nat) : res nat :=
  match l with
  | [] => Raise ValueError
  | _ => Ok (foldr Nat.max 0 l)
  end.

(** [a.size] *)
Definition size_of (a : ndarray) : nat := prod_list (shape a).

(** [np.ones_like(a)] *)
Definition ones_like (a : ndarray) : ndarray :=
  NDArray (shape a) (map (fun _ => 1%float) (flat a)).

(** [values[0]]: a number when [values] has one axis, the first
    sub-array otherwise. *)
Definition getitem0 (a : ndarray) : res pyval :=
  match shape a with
  | [] => Raise IndexError
  | [_] => match flat a with
           | v :: _ => Ok (PyFloat v)
           | [] => Raise IndexError
           end
  | 0 :: _ => Raise IndexError
  | S _ :: rest => Ok (PyArray (NDArray rest (take (prod_list rest) (flat a))))
  end.

(** ** Method enumerations *)

Inductive INTERP_METH := hold | nearest | linear | akima | fritsch_butland | steffen.
Inductive EXTRAP_METH := hold_x | linear_x.

(** [INTERP_METH[name]] and [EXTRAP_METH[name]] *)
Definition INTERP_METH_getitem (name : string) : res INTERP_METH :=
  if decide (name = "hold") then Ok hold
  else if decide (name = "nearest") then Ok nearest
  else if decide (name = "linear") then Ok linear
  else if decide (name = "akima") then Ok akima
  else if decide (name = "fritsch_butland") then Ok fritsch_butland
  else if decide (name = "steffen") then Ok steffen
  else Raise (KeyError name).

Definition EXTRAP_METH_getitem (name : string) : res EXTRAP_METH :=
  if decide (name = "hold") then Ok hold_x
  else if decide (name = "linear") then Ok linear_x
  else Raise (KeyError name).

(** ** The mesh *)

Record Options := { extrapolate : bool; step : bool; deepcopy : bool }.

Definition default_options : Options :=
  {| extrapolate := true; step := false; deepcopy := false |}.

(** A [Mesh] is a labelled array: the ordered coordinates (dimension
    name, breakpoints), the data, the options and the two captions. *)
Record Mesh := {
  coords : list (string * list float);
  data : ndarray;
  options : Options;
  label : option string;
  unit : option string
}.

Definition dims (m : Mesh) : list string := map fst (coords m).
Definition ndim (m : Mesh) : nat := length (shape (data m)).

(** The invariants a labelled array keeps: distinct dimension names, one
    coordinate per axis of the right length, a full buffer. *)
Definition mesh_wf (m : Mesh) : Prop :=
  NoDup (dims m) /\
  shape (data m) = map (fun c => length (snd c)) (coords m) /\
  ndarray_wf (data m).

(** ** The table handed to the native library *)

Definition MAX_NDIMS : nat := 32.

(** A C [int]: 32 bits, two's complement. *)
Definition c_int (z : Z) : Z := ((z + 2 ^ 31) mod 2 ^ 32 - 2 ^ 31)%Z.

Record NDTable_t := {
  t_shape : list Z;
  t_strides : list Z;
  t_ndim : Z;
  t_data : list float;
  t_size : Z;
  t_itemsize : Z;
  t_breakpoints : list (list float)
}.

(** The ctypes array type [c_int * MAX_NDIMS] applied to the unpacked
    sequence [xs]: at most [MAX_NDIMS] initialisers, the remaining slots
    are zero. *)
Definition ARRAY_MAX_NDIMS (xs : list Z) : res (list Z) :=
  if decide (length xs <= MAX_NDIMS)
  then Ok (map c_int xs ++ replicate (MAX_NDIMS - length xs) 0%Z)
  else Raise IndexError.

(** Byte strides of a C-contiguous array of 8-byte items. *)
Fixpoint c_strides (sh : list nat) : list Z :=
  match sh with
  | [] => []
  | _ :: rest => (8 * Z.of_nat (prod_list rest))%Z :: c_strides rest
  end.

Definition NDTable_t_init (m : Mesh) : res NDTable_t :=
  do sh <- ARRAY_MAX_NDIMS (map Z.of_nat (shape (data m)));
  do st <- ARRAY_MAX_NDIMS (c_strides (shape (data m)));
  if decide (length (dims m) <= MAX_NDIMS) then
    Ok {| t_shape := sh;
          t_strides := st;
          t_ndim := c_int (Z.of_nat (ndim m));
          t_data := flat (data m);
          t_size := c_int (Z.of_nat (size_of (data m)));
          t_itemsize := c_int 8;
          t_breakpoints := map snd (coords m) |}
  else Raise IndexError.

(** ** Dense meshes and the construction of a mesh *)

(** [np.ravel(v)] *)
Definition ravel (v : pyval) : list float :=
  match v with
  | PyFloat x => [x]
  | PyArray a => flat a
  end.

(** Every entry of [x] repeated [inner] times. *)
Definition stretch (inner : nat) (x : list float) : list float :=
  flat_map (fun v => replicate inner v) x.

(** [outer] copies of [x] one after the other. *)
Definition tile (outer : nat) (x : list float) : list float :=
  concat (replicate outer x).

(** The buffers of [np.meshgrid( *xs, indexing='ij')] in row-major order:
    the i-th one varies along axis i only.  [outer] is the product of the
    sizes of the axes already passed. *)
Fixpoint meshgrid_flat (outer : nat) (xs : list (list float)) : list (list float) :=
  match xs with
  | [] => []
  | x :: rest =>
      tile outer (stretch (prod_list (map length rest)) x)
        :: meshgrid_flat (outer * length x) rest
  end.

Definition meshgrid (xs : list pyval) : list ndarray :=
  let cols := map ravel xs in
  map (NDArray (map length cols)) (meshgrid_flat 1 cols).

(** The points of the dense mesh, the last axis varying fastest. *)
Fixpoint cartesian (xs : list (list float)) : list (list float) :=
  match xs with
  | [] => [[]]
  | x :: rest => flat_map (fun v => map (cons v) (cartesian rest)) x
  end.

Definition AXES : list string := ["x"; "y"; "z"; "v"; "w"].

(** [d[k]] on the items of a dictionary. *)
Fixpoint getitem {A} (k : string) (items : list (string * A)) : res A :=
  match items with
  | [] => Raise (KeyError k)
  | (k', v) :: items' => if decide (k = k') then Ok v else getitem k items'
  end.

(** Modelled from the spec: the breakpoints of a dimension are a
    sequence of doubles; the labelled-array constructor (xarray, not
    among the sources) refuses a coordinate that is not a one-axis
    array. *)
Definition coordinate (kv : string * pyval) : res (string * list float) :=
  match kv.2 with
  | PyArray a => match shape a with
                 | [_] => Ok (kv.1, flat a)
                 | _ => Raise ValueError
                 end
  | PyFloat _ => Raise ValueError
  end.

(** A bare number converts to an array without axes. *)
Definition as_data (nv : pyval) : ndarray :=
  match nv with
  | PyFloat v => NDArray [] [v]
  | PyArray a => a
  end.

(** Modelled from the spec: the constructor of the labelled array that
    [Mesh] extends (xarray, not among the sources).  It fails when the
    data shape does not match the breakpoint lengths in count or per
    axis. *)
Definition DataArray_init (nv : pyval) (cs : list (string * list float))
  : res ndarray :=
  if decide (shape (as_data nv) = map (fun c => length c.2) cs)
  then Ok (as_data nv)
  else Raise ValueError.

(** [Mesh(nv, **kwargs)] as [resample] calls it: the data first, then
    one keyword per dimension.  Keywords among [AXES] become the
    coordinates, in the order of [AXES]; any other keyword reaches the
    labelled-array constructor, which has no such parameter.  (The
    constructor's own keywords are not dimension names of a mesh.) *)
Definition Mesh_init (nv : pyval) (kwargs : list (string * pyval)) : res Mesh :=
  let named := filter (fun ax => bool_decide (ax ∈ map fst kwargs)) AXES in
  if forallb (fun kv => bool_decide (kv.1 ∈ AXES)) kwargs then
    do cs <- traverse (fun ax => do v <- getitem ax kwargs; coordinate (ax, v)) named;
    do d <- DataArray_init nv cs;
    Ok {| coords := cs; data := d; options := default_options;
          label := None; unit := None |}
  else Raise TypeError.

(** ** Calls into the native library *)

Section Native.

(** The pointwise routine [NDT_eval] of libNDTable: table, number of
    dimensions, one coordinate per dimension, the two methods; it
    returns a status and the value it stored. *)
Variable NDT_eval :
  NDTable_t -> Z -> list float -> INTERP_METH -> EXTRAP_METH -> Z * float.

(** The derivative at one query point, as libNDTable computes it inside
    [evaluate_derivative]: as [NDT_eval], with one step per dimension
    after the coordinates. *)
Variable NDT_eval_derivative :
  NDTable_t -> Z -> list float -> list float ->
  INTERP_METH -> EXTRAP_METH -> Z * float.

(** What an entry of [np.empty] holds before it is written. *)
Variable uninit : float.

(** [np.empty(sh)] *)
Definition np_empty (sh : list nat) : ndarray :=
  NDArray sh (replicate (prod_list sh) uninit).

(** Entry [k] of each of the first [nd] columns; [None] when a column
    is missing or shorter than [k + 1]. *)
Definition gather (cols : list ndarray) (nd k : nat) : option (list float) :=
  mapM (fun d => cols !! d ≫= fun a => flat a !! k) (seq 0 nd).

(** The loop over query points [k], [k + 1], ..., [k + n - 1]: the
    status and the values stored so far.  It stops at the first
    non-zero status. *)
Fixpoint eval_from (f : nat -> option (Z * float)) (k n : nat)
  : res (Z * list float) :=
  match n with
  | 0 => Ok (0%Z, [])
  | S n' =>
      match f k with
      | None => Raise Undefined
      | Some (st, v) =>
          if decide (st = 0%Z)
          then do r <- eval_from f (S k) n'; Ok (r.1, v :: r.2)
          else Ok (st, [])
      end
  end.

(** The values overwrite the head of the result buffer. *)
Definition store (r : Z * list float) (result : list float) : Z * list float :=
  (r.1, r.2 ++ drop (length r.2) result).

(** Modelled from the spec: the native routine [evaluate_interpolation]
    (lerp/C/src, not among the sources).  For each of the [size] query
    points, independently, it evaluates the table at the point made of
    the k-th entry of every coordinate array and stores the value at
    position k of [result]. *)
Definition evaluate_interpolation (tbl : NDTable_t) (params : list ndarray)
    (nd : Z) (interp : INTERP_METH) (extrap : EXTRAP_METH) (size : Z)
    (result : list float) : res (Z * list float) :=
  do r <- eval_from
            (fun k => (fun p => NDT_eval tbl nd p interp extrap)
                        <$> gather params (Z.to_nat nd) k)
            0 (Z.to_nat size);
  Ok (store r result).

(** Modelled from the spec: the native routine [evaluate_derivative]
    (lerp/C/src, not among the sources).  As [evaluate_interpolation],
    with the k-th entry of every step array passed along with the
    point. *)
Definition evaluate_derivative (tbl : NDTable_t) (params deltas : list ndarray)
    (nd : Z) (interp : INTERP_METH) (extrap : EXTRAP_METH) (size : Z)
    (result : list float) : res (Z * list float) :=
  do r <- eval_from
            (fun k => gather params (Z.to_nat nd) k ≫= fun p =>
                      gather deltas (Z.to_nat nd) k ≫= fun dx =>
                      Some (NDT_eval_derivative tbl nd p dx interp extrap))
            0 (Z.to_nat size);
  Ok (store r result).

(** ** Query arguments *)

(** [len(set(self.dims) & set(kwargs)) + len(points)] *)
Definition supplied (m : Mesh) (points : list pyval)
    (kwargs : gmap string pyval) : nat :=
  size ((list_to_set (dims m) : gset string) ∩ dom kwargs) + length points.

(** [{_x : kwargs[_x] if _x in kwargs else points.pop(0) for _x in self.dims}]:
    dimension names are distinct, so the dictionary is the list of its
    items in insertion order. *)
Fixpoint bind_args (ds : list string) (kwargs : gmap string pyval)
    (points : list pyval) : res (list (string * pyval)) :=
  match ds with
  | [] => Ok []
  | x :: ds' =>
      match kwargs !! x with
      | Some v => do r <- bind_args ds' kwargs points; Ok ((x, v) :: r)
      | None =>
          match points with
          | [] => Raise IndexError
          | p :: ps => do r <- bind_args ds' kwargs ps; Ok ((x, p) :: r)
          end
      end
  end.

(** [len(a) if "__len__" in dir(a) else 1] *)
Definition arg_len (v : pyval) : res nat :=
  match v with
  | PyArray a => py_len a
  | PyFloat _ => Ok 1
  end.

(** [np.asarray(a, np.float64) if "__len__" in dir(a)
     else np.ones((n,), np.float64) * a] *)
Definition as_array (n : nat) (v : pyval) : ndarray :=
  match v with
  | PyArray a => a
  | PyFloat x => NDArray [n] (replicate n (1 * x)%float)
  end.

Definition arity_msg : string := "Not enough dimensions for interpolation".
Definition broadcast_msg : string := "problème".
Definition native_msg : string := "An error occurred during interpolation".

(** [all((dims == max(dims)) + (dims == 1))] *)
Definition compatible (lens : list nat) (mx : nat) : bool :=
  forallb (fun d => (d =? mx) || (d =? 1)) lens.

(** The preamble shared by [interpolation] and [derivate]: the arity
    check, the binding of positional and named arguments, the length
    check and the conversion to arrays. *)
Definition query_args (m : Mesh) (points : list pyval)
    (kwargs : gmap string pyval) : res (list ndarray) :=
  if decide (supplied m points kwargs = ndim m) then
    do args <- bind_args (dims m) kwargs points;
    do lens <- traverse (fun kv => arg_len kv.2) args;
    do mx <- py_max lens;
    if compatible lens mx
    then Ok (map (fun kv => as_array mx kv.2) args)
    else Raise (AssertionError broadcast_msg)
  else Raise (AssertionError arity_msg).

Definition first_arg (args : list ndarray) : res ndarray :=
  match args with
  | [] => Raise IndexError
  | a :: _ => Ok a
  end.

(** [values[0] if len(values) == 1 else values] *)
Definition unwrap (values : ndarray) : res pyval :=
  do n <- py_len values;
  if decide (n = 1) then getitem0 values else Ok (PyArray values).

Definition finish (sh : list nat) (r : Z * list float) : res pyval :=
  if decide (r.1 = 0%Z) then unwrap (NDArray sh r.2)
  else Raise (AssertionError native_msg).

(** ** [Mesh.interpolation], [Mesh.derivate] and [Mesh.__call__] *)

(** An absent [interp] or [extrap] takes the default of the signature. *)
Definition interpolation (m : Mesh) (points : list pyval)
    (interp extrap : option string) (kwargs : gmap string pyval) : res pyval :=
  let interp := default "linear" interp in
  let extrap := default "hold" extrap in
  do args <- query_args m points kwargs;
  do a0 <- first_arg args;
  let values := np_empty (shape a0) in
  do tbl <- NDTable_t_init m;
  do im <- INTERP_METH_getitem interp;
  do em <- EXTRAP_METH_getitem extrap;
  do r <- evaluate_interpolation tbl args (c_int (Z.of_nat (ndim m))) im em
            (c_int (Z.of_nat (size_of values))) (flat values);
  finish (shape values) r.

Definition derivate (m : Mesh) (points : list pyval)
    (interp extrap : option string) (kwargs : gmap string pyval) : res pyval :=
  let interp := default "linear" interp in
  let extrap := default "hold" extrap in
  do args <- query_args m points kwargs;
  let dxi := map ones_like args in
  do a0 <- first_arg args;
  let values := np_empty (shape a0) in
  do tbl <- NDTable_t_init m;
  do im <- INTERP_METH_getitem interp;
  do em <- EXTRAP_METH_getitem extrap;
  do r <- evaluate_derivative tbl args dxi (c_int (Z.of_nat (ndim m))) im em
            (c_int (Z.of_nat (size_of values))) (flat values);
  finish (shape values) r.

(** The keyword arguments of a call of the mesh: the two method names
    when given, and the remaining keywords. *)
Record call_kwargs := {
  kw_interp : option string;
  kw_extrap : option string;
  kw_rest : gmap string pyval
}.

Definition call (m : Mesh) (pargs : list pyval) (kwargs : call_kwargs)
  : res pyval :=
  if step (options m) then
    interpolation m pargs (Some "hold") (Some "hold") (kw_rest kwargs)
  else if extrapolate (options m) && negb (bool_decide (is_Some (kw_extrap kwargs)))
  then interpolation m pargs (kw_interp kwargs) (Some "linear") (kw_rest kwargs)
  else interpolation m pargs (kw_interp kwargs) (kw_extrap kwargs) (kw_rest kwargs).

(** ** [Mesh.resample] *)

(** The loop of [resample] over [self.dims]: a keyword wins, then the
    next positional argument, then the mesh's own coordinate. *)
Fixpoint resample_args (m : Mesh) (ds : list string)
    (kwargs : gmap string pyval) (points : list pyval)
  : res (list (string * pyval)) :=
  match ds with
  | [] => Ok []
  | d :: ds' =>
      match kwargs !! d with
      | Some v => do r <- resample_args m ds' kwargs points; Ok ((d, v) :: r)
      | None =>
          match points with
          | p :: ps => do r <- resample_args m ds' kwargs ps; Ok ((d, p) :: r)
          | [] =>
              do c <- getitem d (coords m);
              do r <- resample_args m ds' kwargs [];
              Ok ((d, PyArray (vec c)) :: r)
          end
      end
  end.

Definition resample (m : Mesh) (points : list pyval)
    (interp extrap : option string) (kwargs : gmap string pyval) : res Mesh :=
  let interp := default "linear" interp in
  let extrap := default "hold" extrap in
  do args <- resample_args m (dims m) kwargs points;
  let mg := meshgrid (map snd args) in
  do nv <- interpolation m (map PyArray mg)
             (Some interp) (Some extrap) ∅;
  Mesh_init nv args.

End Native.


(** ** The evaluation engine *)

(** Modelled from the spec: the bracketing interval of a coordinate
    along one dimension (the native engine is not among the sources):
    the indices of the two breakpoints and the fractional position
    between them. *)
Record bracket := { br_lo : nat; br_hi : nat; br_t : float }.

(** Modelled from the spec: the binary search of the native engine for
    the index [i] with [bp[i] <= x < bp[i+1]], knowing
    [bp[lo] <= x < bp[hi]]. *)
Fixpoint bsearch (fuel : nat) (bp : list float) (x : float) (lo hi : nat) : nat :=
  match fuel with
  | 0 => lo
  | S fuel' =>
      if decide (hi - lo <= 1) then lo
      else
        let mid := (lo + hi) / 2 in
        if (x <? nth mid bp nan)%float
        then bsearch fuel' bp x lo mid
        else bsearch fuel' bp x mid hi
  end.

(** Modelled from the spec: the fractional position
    [t = (x - bp[lo]) / (bp[hi] - bp[lo])] of step 3. *)
Definition fraction (bp : list float) (lo hi : nat) (x : float) : bracket :=
  {| br_lo := lo; br_hi := hi;
     br_t := ((x - nth lo bp nan) / (nth hi bp nan - nth lo bp nan))%float |}.

(** Modelled from the spec: steps 1 and 2 of the evaluation of one query
    point (the native engine is not among the sources).  A coordinate
    below the first breakpoint or at or above the last one is out of
    range: [hold] clamps it to the boundary, [linear] keeps it, and both
    use the outermost interval. *)
Definition locate (bp : list float) (x : float) (em : EXTRAP_METH) : bracket :=
  let last := length bp - 1 in
  if (x <? nth 0 bp nan)%float then
    fraction bp 0 (Nat.min 1 last)
      match em with hold_x => nth 0 bp nan | linear_x => x end
  else if (nth last bp nan <=? x)%float then
    fraction bp (last - 1) last
      match em with hold_x => nth last bp nan | linear_x => x end
  else
    let i := bsearch (length bp) bp x 0 last in
    fraction bp i (S i) x.

(** Modelled from the spec: step 3, for the three methods the spec
    defines in closed form.  [hold] takes the lower corner of the cell
    (the boundary sample once the position reaches the upper breakpoint),
    [nearest] the closer corner with ties toward the lower index, and
    [linear] the sum over the corners of the cell of the corner value
    weighted by the product of [t] or [1 - t] along each dimension.
    [brs] pairs each bracket with the stride, in items, of its axis. *)
Fixpoint blend (im : INTERP_METH) (buf : list float)
    (brs : list (bracket * nat)) (off : nat) (w : float) : float :=
  match brs with
  | [] => (w * nth off buf nan)%float
  | (b, s) :: rest =>
      let lo := off + br_lo b * s in
      let hi := off + br_hi b * s in
      match im with
      | hold =>
          if (1 <=? br_t b)%float then blend im buf rest hi w
          else blend im buf rest lo w
      | nearest =>
          if (br_t b <=? 0.5)%float then blend im buf rest lo w
          else blend im buf rest hi w
      | _ =>
          (blend im buf rest lo (w * (1 - br_t b))
           + blend im buf rest hi (w * br_t b))%float
      end
  end.

(** Modelled from the spec: strides address the data in items; the
    table carries them in bytes. *)
Definition item_stride (tbl : NDTable_t) (st : Z) : nat :=
  Z.to_nat (st / t_itemsize tbl).

(** Modelled from the spec: the pointwise evaluation of the engine.  The
    number of coordinates must equal the table's [ndim] (step 4).  The
    cubic families are described in the spec without their formulas;
    this model does not evaluate them and reports a non-zero status. *)
Definition NDT_eval_spec (tbl : NDTable_t) (nd : Z) (p : list float)
    (im : INTERP_METH) (em : EXTRAP_METH) : Z * float :=
  if decide (nd = t_ndim tbl /\ Z.of_nat (length p) = nd) then
    match im with
    | akima | fritsch_butland | steffen => (1%Z, nan)
    | _ =>
        let brs := zip_with (fun bp x => locate bp x em) (t_breakpoints tbl) p in
        let sts := map (item_stride tbl) (take (length p) (t_strides tbl)) in
        (0%Z, blend im (t_data tbl) (zip brs sts) 0 1%float)
    end
  else (1%Z, nan).

(** ** Notions used in the statements *)


(** The coordinate [resample] is expected to use for the dimension [d]
    at position [i] of [ds]: the keyword [d] when given; otherwise the
    positional argument whose rank is the number of earlier dimensions
    without a keyword; otherwise, when the positional arguments are
    used up, the mesh's own breakpoints. *)
Definition resample_choice (m : Mesh) (ds : list string)
    (kwargs : gmap string pyval) (points : list pyval) (i : nat) (d : string)
  : res pyval :=
  match kwargs !! d with
  | Some w => Ok w
  | None =>
      match points !! length (filter (fun d' => d' ∉ dom kwargs) (take i ds)) with
      | Some p => Ok p
      | None => do bp <- getitem d (coords m); Ok (PyArray (vec bp))
      end
  end.

(** A well-formed array with a single axis. *)
Definition one_axis (v : pyval) : Prop := exists l, v = PyArray (vec l).

(** A result that is not the exception [e]. *)
Definition never {A} (e : exn) (r : res A) : Prop := r <> Raise e.

(** The member names of the two enumerations, as their declarations
    list them. *)
Definition INTERP_NAMES : list string :=
  ["hold"; "nearest"; "linear"; "akima"; "fritsch_butland"; "steffen"].
Definition EXTRAP_NAMES : list string := ["hold"; "linear"].

(** A query argument written out as the array that [as_array] makes of
    it for the common length [n]. *)
Definition expand (n : nat) (v : pyval) : pyval := PyArray (as_array n v).

(** The query argument that the binding gives to the dimension [d] at
    position [i] of [ds]: the keyword [d] when given, otherwise the
    positional argument whose rank is the number of earlier dimensions
    without a keyword. *)
Definition bind_choice (ds : list string) (kwargs : gmap string pyval)
    (points : list pyval) (i : nat) (d : string) : option pyval :=
  match kwargs !! d with
  | Some w => Some w
  | None => points !! length (filter (fun d' => d' ∉ dom kwargs) (take i ds))
  end.

(** The length the length check sees for an argument, [n] standing for
    the length of a bare number. *)
Definition len_or (n : nat) (v : pyval) : nat :=
  match v with
  | PyFloat _ => n
  | PyArray a => match shape a with s :: _ => s | [] => 0 end
  end.

(** The exceptions a query can end with. *)
Definition query_exception (interp extrap : option string) (e : exn) : Prop :=
  e = AssertionError arity_msg \/ e = IndexError \/ e = TypeError
  \/ e = ValueError \/ e = AssertionError broadcast_msg
  \/ (e = KeyError (default "linear" interp)
      /\ default "linear" interp ∉ INTERP_NAMES)
  \/ (e = KeyError (default "hold" extrap)
      /\ default "hold" extrap ∉ EXTRAP_NAMES)
  \/ e = Undefined
  \/ e = AssertionError native_msg.

(** The mesh [m] with other options and captions. *)
Definition with_captions (m : Mesh) (o : Options) (l u : option string) : Mesh :=
  {| coords := coords m; data := data m; options := o; label := l; unit := u |}.

(** ** [Mesh.__init__] *)

(** [d[k] = v] on the items of a dictionary: a key that is present keeps
    its place, a new one goes last. *)
Fixpoint setitem {A} (k : string) (v : A) (items : list (string * A))
  : list (string * A) :=
  match items with
  | [] => [(k, v)]
  | (k', v') :: items' =>
      if decide (k = k') then (k, v) :: items' else (k', v') :: setitem k v items'
  end.

(** The keyword arguments of the constructor: the four it reads by name
    and the others in the order of the call, their names distinct and
    other than those four.  (Left out: [fastpath], which hands the call
    to the labelled-array constructor untouched, and the keywords that
    constructor takes for itself.) *)
Record init_kwargs := {
  ik_coords : option (list (string * pyval));
  ik_label : option string;
  ik_unit : option string;
  ik_data : option pyval;
  ik_rest : list (string * pyval)
}.

(** [set(kwargs)] *)
Definition key_of {A} (k : string) (o : option A) : list string :=
  match o with
  | Some _ => [k]
  | None => []
  end.

Definition init_keys (kw : init_kwargs) : list string :=
  key_of "coords" (ik_coords kw) ++ key_of "label" (ik_label kw)
  ++ key_of "unit" (ik_unit kw) ++ key_of "data" (ik_data kw)
  ++ map fst (ik_rest kw).

Definition redundant_msg : string := "Redundant arguments in coords and kwargs".

(** [bool(set(kwargs) & set(kwargs['coords']))] *)
Definition redundant (kw : init_kwargs) : bool :=
  match ik_coords kw with
  | Some cs => existsb (fun k => bool_decide (k ∈ map fst cs)) (init_keys kw)
  | None => false
  end.

(** The data and the positional arguments left for the axes:
    [kwargs['data']], else [pargs[-1]] with [pargs[:-1]]. *)
Definition init_data (pargs : list pyval) (kw : init_kwargs)
  : res (pyval * list pyval) :=
  match ik_data kw with
  | Some d => Ok (d, pargs)
  | None =>
      match last pargs with
      | Some d => Ok (d, take (length pargs - 1) pargs)
      | None => Raise IndexError
      end
  end.

(** The coordinates dictionary after the two loops: the positional
    arguments under the names of [AXES] in order, as far as both go,
    then the keywords named after an axis, in the order of [AXES]. *)
Definition init_coords (axes : list pyval) (kw : init_kwargs)
  : list (string * pyval) :=
  let positional :=
    foldl (fun cs kv => setitem kv.1 kv.2 cs) (default [] (ik_coords kw))
      (zip AXES axes) in
  foldl (fun cs ax =>
           match getitem ax (ik_rest kw) with
           | Ok v => setitem ax v cs
           | Raise _ => cs
           end)
    positional
    (filter (fun ax => bool_decide (ax ∈ map fst (ik_rest kw))) AXES).

(** [Mesh( *pargs, **kwargs)] for a call without the keyword
    [fastpath] (with it, the source skips the naming of the axes and
    hands the call to the labelled-array constructor as it is; that
    branch is not described here).  The keywords that are left when
    the axes are taken out reach the labelled-array constructor, which
    has no parameter for them; [dims] is overwritten before. *)
Definition Mesh__init__ (pargs : list pyval) (kw : init_kwargs) : res Mesh :=
  if redundant kw then Raise (AssertionError redundant_msg)
  else
    do dp <- init_data pargs kw;
    let cs := init_coords dp.2 kw in
    if forallb (fun kv => bool_decide (kv.1 ∈ AXES) || bool_decide (kv.1 = "dims"))
         (ik_rest kw)
    then
      do cs' <- traverse coordinate cs;
      do d <- DataArray_init dp.1 cs';
      Ok {| coords := cs'; data := d; options := default_options;
            label := ik_label kw; unit := ik_unit kw |}
    else Raise TypeError.

(** A call of the constructor with no keyword but [rest]. *)
Definition keywords (rest : list (string * pyval)) : init_kwargs :=
  {| ik_coords := None; ik_label := None; ik_unit := None; ik_data := None;
     ik_rest := rest |}.

(** The keyword arguments [kw] with [rest] for the keywords that the
    constructor does not read by name. *)
Definition with_rest (kw : init_kwargs) (rest : list (string * pyval))
  : init_kwargs :=
  {| ik_coords := ik_coords kw; ik_label := ik_label kw; ik_unit := ik_unit kw;
     ik_data := ik_data kw; ik_rest := rest |}.

(** ** [Mesh.interpolation_NDT_eval] *)

(** [np.ndindex( *sh)]: the multi-indices of an array of shape [sh], the
    last axis varying fastest. *)
Fixpoint ndindex (sh : list nat) : list (list nat) :=
  match sh with
  | [] => [[]]
  | n :: rest => flat_map (fun i => map (cons i) (ndindex rest)) (seq 0 n)
  end.

(** Where the multi-index [idx] leads in an array of shape [sh]: the
    offset in the buffer and the axes that are left; nowhere when there
    are more indices than axes or when an index is out of bounds. *)
Fixpoint offset (sh : list nat) (idx : list nat) : option (nat * list nat) :=
  match idx with
  | [] => Some (0, sh)
  | i :: idx' =>
      match sh with
      | [] => None
      | n :: sh' =>
          if decide (i < n)
          then (fun r : nat * list nat => (i * prod_list sh' + r.1, r.2))
                 <$> offset sh' idx'
          else None
      end
  end.

(** [point[index]] for a tuple of indices: a number when every axis is
    indexed, the sub-array otherwise. *)
Definition getitem_index (a : ndarray) (idx : list nat) : res pyval :=
  match offset (shape a) idx with
  | None => Raise IndexError
  | Some (off, []) =>
      match flat a !! off with
      | Some v => Ok (PyFloat v)
      | None => Raise IndexError
      end
  | Some (off, rest) =>
      Ok (PyArray (NDArray rest (take (prod_list rest) (drop off (flat a)))))
  end.

(** [params[i] = v]: the slot of a float64 array takes a number; an
    array of one entry gives its entry, any other array is refused. *)
Definition as_scalar (v : pyval) : res float :=
  match v with
  | PyFloat x => Ok x
  | PyArray a => match flat a with
                 | [x] => Ok x
                 | _ => Raise ValueError
                 end
  end.

(** The inner loop: [params[i] = point[index]] for every argument. *)
Definition point_params (args : list ndarray) (index : list nat)
  : res (list float) :=
  traverse (fun point => do v <- getitem_index point index; as_scalar v) args.

(** The outer loop over the indices: [body] is given what the cell
    [value] holds and returns what it holds after the call; that is
    stored at the index. *)
Fixpoint eval_points (body : list nat -> float -> res float)
    (indices : list (list nat)) (cell : float) : res (list float) :=
  match indices with
  | [] => Ok []
  | index :: rest =>
      do v <- body index cell;
      do vs <- eval_points body rest v;
      Ok (v :: vs)
  end.

Section Pointwise.

(** [NDT_eval] as it is called here, with [byref(value)] for the result:
    the last argument is what the cell [value] holds before the call;
    the routine returns its status and what the cell holds after.  It
    reads one coordinate per dimension. *)
Variable NDT_eval_byref :
  NDTable_t -> Z -> list float -> INTERP_METH -> EXTRAP_METH -> float -> Z * float.

(** One pass of the loop body: [params] is filled, the table is built,
    the two names are looked up and the routine is called; its status
    is dropped.  The routine reads [nd] entries of [params]; with fewer
    entries it reads outside the buffer. *)
Definition eval_point (m : Mesh) (interp extrap : string) (args : list ndarray)
    (index : list nat) (cell : float) : res float :=
  do params <- point_params args index;
  do tbl <- NDTable_t_init m;
  let nd := c_int (Z.of_nat (ndim m)) in
  do im <- INTERP_METH_getitem interp;
  do em <- EXTRAP_METH_getitem extrap;
  if decide (Z.to_nat nd <= length params)
  then Ok (NDT_eval_byref tbl nd (take (Z.to_nat nd) params) im em cell).2
  else Raise Undefined.

(** [value = c_double()] holds zero at first. *)
Definition interpolation_NDT_eval (m : Mesh) (points : list pyval)
    (interp extrap : option string) (kwargs : gmap string pyval) : res pyval :=
  let interp := default "linear" interp in
  let extrap := default "hold" extrap in
  do args <- query_args m points kwargs;
  do a0 <- first_arg args;
  do vs <- eval_points (eval_point m interp extrap args) (ndindex (shape a0)) 0%float;
  unwrap (NDArray (shape a0) vs).

End Pointwise.

(** ** Example grids *)

(** The grid of the concrete scenario: samples of the square on
    [0, 1, 2, 3]. *)
Definition squares : Mesh :=
  {| coords := [("x", [0; 1; 2; 3]%float)];
     data := vec [0; 1; 4; 9]%float;
     options := default_options;
     label := None;
     unit := None |}.

(** A 2 x 3 grid on [x] and [y]. *)
Definition plane : Mesh :=
  {| coords := [("x", [0; 1]%float); ("y", [0; 1; 2]%float)];
     data := NDArray [2; 3] [0; 1; 2; 3; 4; 5]%float;
     options := default_options;
     label := None;
     unit := None |}.

(** A grid with a single breakpoint along its first dimension. *)
Definition row : Mesh :=
  {| coords := [("x", [0]%float); ("y", [0; 1]%float)];
     data := NDArray [1; 2] [1; 2]%float;
     options := default_options;
     label := None;
     unit := None |}.


(** The tables the native library receives for [plane] and [row]. *)
Definition plane_table : NDTable_t :=
  {| t_shape := [2; 3]%Z ++ replicate 30 0%Z;
     t_strides := [24; 8]%Z ++ replicate 30 0%Z;
     t_ndim := 2;
     t_data := [0; 1; 2; 3; 4; 5]%float;
     t_size := 6;
     t_itemsize := 8;
     t_breakpoints := [[0; 1]%float; [0; 1; 2]%float] |}.

Definition row_table : NDTable_t :=
  {| t_shape := [1; 2]%Z ++ replicate 30 0%Z;
     t_strides := [16; 8]%Z ++ replicate 30 0%Z;
     t_ndim := 2;
     t_data := [1; 2]%float;
     t_size := 2;
     t_itemsize := 8;
     t_breakpoints := [[0]%float; [0; 1]%float] |}.

(** A grid with a single node and 33 dimensions. *)
Definition wide : Mesh :=
  {| coords := map (fun i => (String (Ascii.ascii_of_nat (65 + i)) EmptyString,
                              [0%float]))
                 (seq 0 33);
     data := NDArray (replicate 33 1) [1%float];
     options := default_options; label := None; unit := None |}.

(** The data of [plane] as a query value. *)
Definition plane_data : pyval := PyArray (data plane).

(** * Properties *)

(** ** Results *)

Lemma bind_Ok {A B} (c : res A) (k : A -> res B) (b : B) :
  bind c k = Ok b <-> exists a, c = Ok a /\ k a = Ok b.
Proof.
  destruct c as [a|e]; simpl; split.
  - intros H. exists a. split; [reflexivity | exact H].
  - intros (a' & Ha & Hk). injection Ha as ->. exact Hk.
  - discriminate.
  - intros (a' & Ha & _). discriminate.
Qed.

Lemma bind_Raise {A B} (c : res A) (k : A -> res B) (e : exn) :
  bind c k = Raise e <-> c = Raise e \/ exists a, c = Ok a /\ k a = Raise e.
Proof.
  destruct c as [a|e']; simpl; split.
  - intros H. right. exists a. split; [reflexivity | exact H].
  - intros [H | (a' & Ha & Hk)]; [discriminate|]. injection Ha as ->. exact Hk.
  - intros H. left. congruence.
  - intros [H | (a' & Ha & _)]; [congruence | discriminate].
Qed.

Lemma bind_ext {A B} (c : res A) (k1 k2 : A -> res B) :
  (forall a, c = Ok a -> k1 a = k2 a) -> bind c k1 = bind c k2.
Proof. destruct c as [a|e]; simpl; intros H; [apply H|]; reflexivity. Qed.

Ltac inv_bind H :=
  let a := fresh "a" in
  let Ha := fresh "H" a in
  apply bind_Ok in H; destruct H as (a & Ha & H).

Tactic Notation "open_bind" hyp(H) "as" ident(a) ident(Ha) :=
  apply bind_Ok in H; destruct H as (a & Ha & H).

(** ** The native loops *)





(** ** The bracket search *)

(** The search never runs out of fuel: the interval shrinks at every
    step, so more fuel than its width changes nothing. *)
Lemma bsearch_fuel (bp : list float) (x : float) (fuel lo hi : nat) :
  hi - lo <= fuel + 1 ->
  bsearch (S fuel) bp x lo hi = bsearch fuel bp x lo hi.
Proof.
  revert lo hi. induction fuel as [|fuel IH]; intros lo hi Hw.
  - simpl. destruct (decide (hi - lo <= 1)); [reflexivity|lia].
  - change (bsearch (S (S fuel)) bp x lo hi)
      with (if decide (hi - lo <= 1) then lo
            else if (x <? nth ((lo + hi) / 2) bp nan)%float
                 then bsearch (S fuel) bp x lo ((lo + hi) / 2)
                 else bsearch (S fuel) bp x ((lo + hi) / 2) hi).
    change (bsearch (S fuel) bp x lo hi)
      with (if decide (hi - lo <= 1) then lo
            else if (x <? nth ((lo + hi) / 2) bp nan)%float
                 then bsearch fuel bp x lo ((lo + hi) / 2)
                 else bsearch fuel bp x ((lo + hi) / 2) hi).
    destruct (decide (hi - lo <= 1)) as [|Hgt]; [reflexivity|].
    assert (Hlo : lo + 1 <= (lo + hi) / 2)
      by (apply Nat.div_le_lower_bound; lia).
    assert (Hhi : (lo + hi) / 2 < hi)
      by (apply Nat.Div0.div_lt_upper_bound; lia).
    destruct (x <? nth ((lo + hi) / 2) bp nan)%float; apply IH; lia.
Qed.

(** ** Derivative steps *)



(** ** Defaults of [__call__] and [interpolation] *)

(** C8: with [extrapolate] enabled (as the constructor sets it) and
    [step] disabled, a call of the mesh without [extrap] is
    [interpolation] with linear extrapolation; [interpolation] itself,
    without method arguments, is linear interpolation with hold
    extrapolation. *)
Theorem call_default_extrapolation K uninit m pargs kwargs :
  extrapolate (options m) = true ->
  step (options m) = false ->
  kw_extrap kwargs = None ->
  call K uninit m pargs kwargs
  = interpolation K uninit m pargs (kw_interp kwargs) (Some "linear")
      (kw_rest kwargs)
  /\ EXTRAP_METH_getitem "linear" = Ok linear_x
  /\ extrapolate default_options = true
  /\ step default_options = false
  /\ interpolation K uninit m pargs None None (kw_rest kwargs)
     = interpolation K uninit m pargs (Some "linear") (Some "hold")
         (kw_rest kwargs)
  /\ INTERP_METH_getitem "linear" = Ok linear
  /\ EXTRAP_METH_getitem "hold" = Ok hold_x.
Proof.
  intros He Hs Hx. unfold call. rewrite Hs, He, Hx. repeat split.
Qed.

(** C10: with [step] enabled, a call of the mesh drops the caller's
    [interp] and [extrap] and is [interpolation] with hold interpolation
    and hold extrapolation, whatever the caller passed. *)
Theorem call_step_hold K uninit m pargs kwargs :
  step (options m) = true ->
  call K uninit m pargs kwargs
  = interpolation K uninit m pargs (Some "hold") (Some "hold") (kw_rest kwargs)
  /\ (forall i x,
        call K uninit m pargs
          {| kw_interp := i; kw_extrap := x; kw_rest := kw_rest kwargs |}
        = call K uninit m pargs kwargs)
  /\ INTERP_METH_getitem "hold" = Ok hold
  /\ EXTRAP_METH_getitem "hold" = Ok hold_x.
Proof.
  intros Hs. unfold call. rewrite Hs. repeat split.
Qed.

(** ** The concrete scenario *)

(** C2: on the grid with breakpoints [0,1,2,3] and data [0,1,4,9],
    linear interpolation at 1.5 gives 2.5, hold extrapolation at 5 gives
    9 and linear extrapolation at 5 gives 19. *)
Theorem squares_scenario uninit :
  interpolation NDT_eval_spec uninit squares [PyFloat 1.5%float]
    (Some "linear") (Some "hold") ∅ = Ok (PyFloat 2.5%float)
  /\ interpolation NDT_eval_spec uninit squares [PyFloat 5%float]
       (Some "linear") (Some "hold") ∅ = Ok (PyFloat 9%float)
  /\ interpolation NDT_eval_spec uninit squares [PyFloat 5%float]
       (Some "linear") (Some "linear") ∅ = Ok (PyFloat 19%float).
Proof. repeat split; vm_compute; reflexivity. Qed.

(** ** The checks on the query arguments *)

Lemma never_bind {A B} e (c : res A) (k : A -> res B) :
  never e c -> (forall a, c = Ok a -> never e (k a)) -> never e (bind c k).
Proof.
  unfold never. intros Hc Hk H. apply bind_Raise in H.
  destruct H as [H | (a & Ha & H)]; [exact (Hc H) | exact (Hk a Ha H)].
Qed.

Lemma never_Ok {A} e (a : A) : never e (Ok a).
Proof. discriminate. Qed.

Lemma bind_args_never ds kwargs points msg :
  never (AssertionError msg) (bind_args ds kwargs points).
Proof.
  revert points. induction ds as [|d ds IH]; intros points; simpl.
  - apply never_Ok.
  - destruct (kwargs !! d).
    + apply never_bind; [apply IH | intros; apply never_Ok].
    + destruct points; [discriminate|].
      apply never_bind; [apply IH | intros; apply never_Ok].
Qed.

Lemma arg_lens_never (args : list (string * pyval)) msg :
  never (AssertionError msg) (traverse (fun kv => arg_len kv.2) args).
Proof.
  induction args as [|[d v] args IH]; simpl.
  - apply never_Ok.
  - apply never_bind.
    + destruct v as [x|a]; simpl; [apply never_Ok|].
      unfold py_len. destruct (shape a); [discriminate | apply never_Ok].
    + intros n _. apply never_bind; [apply IH | intros; apply never_Ok].
Qed.

Lemma arity_msg_broadcast : arity_msg <> broadcast_msg.
Proof. discriminate. Qed.

Lemma arity_msg_native : arity_msg <> native_msg.
Proof. discriminate. Qed.

Lemma query_args_arity m points kwargs :
  query_args m points kwargs = Raise (AssertionError arity_msg)
  <-> supplied m points kwargs <> ndim m.
Proof.
  unfold query_args.
  destruct (decide (supplied m points kwargs = ndim m)) as [Heq|Hne].
  - split; [|intros H; contradiction].
    intros H. exfalso. revert H.
    apply never_bind; [apply bind_args_never|]. intros args _.
    apply never_bind; [apply arg_lens_never|]. intros lens _.
    apply never_bind.
    { unfold py_max. destruct lens; [discriminate | apply never_Ok]. }
    intros mx _. destruct (compatible lens mx); [apply never_Ok|].
    intros H. apply arity_msg_broadcast. congruence.
  - split; [intros _; exact Hne | reflexivity].
Qed.

Lemma finish_never sh r : never (AssertionError arity_msg) (finish sh r).
Proof.
  unfold finish. destruct (decide (r.1 = 0%Z)).
  - unfold unwrap. apply never_bind.
    + unfold py_len. simpl. destruct sh; [discriminate | apply never_Ok].
    + intros n _. destruct (decide (n = 1)); [|apply never_Ok].
      unfold getitem0. simpl.
      destruct sh as [|[|s] [|s' sh]]; try discriminate;
        try apply never_Ok; destruct r.2; try discriminate; apply never_Ok.
  - intros H. apply arity_msg_native. congruence.
Qed.

Lemma eval_from_never f k n msg : never (AssertionError msg) (eval_from f k n).
Proof.
  revert k. induction n as [|n IH]; intros k; simpl; [apply never_Ok|].
  destruct (f k) as [[st v]|]; [|discriminate].
  destruct (decide (st = 0%Z)); [|apply never_Ok].
  apply never_bind; [apply IH | intros; apply never_Ok].
Qed.

Lemma NDTable_t_init_never m msg : never (AssertionError msg) (NDTable_t_init m).
Proof.
  unfold NDTable_t_init, ARRAY_MAX_NDIMS.
  repeat (apply never_bind; [destruct (decide _); [apply never_Ok | discriminate]|];
          intros ? _).
  destruct (decide _); [apply never_Ok | discriminate].
Qed.

Lemma INTERP_METH_getitem_never s msg :
  never (AssertionError msg) (INTERP_METH_getitem s).
Proof.
  unfold INTERP_METH_getitem.
  repeat (destruct (decide _); [apply never_Ok|]). discriminate.
Qed.

Lemma EXTRAP_METH_getitem_never s msg :
  never (AssertionError msg) (EXTRAP_METH_getitem s).
Proof.
  unfold EXTRAP_METH_getitem.
  repeat (destruct (decide _); [apply never_Ok|]). discriminate.
Qed.

Lemma first_arg_never args msg : never (AssertionError msg) (first_arg args).
Proof. destruct args; [discriminate | apply never_Ok]. Qed.

(** C3: [interpolation] and [derivate] fail on the arity assertion
    exactly when the number of positional arguments plus the number of
    keywords naming a dimension differs from [ndim]; the check comes
    first, so the failure does not depend on the native routine. *)
Theorem arity_check K KD uninit m points interp extrap kwargs :
  (interpolation K uninit m points interp extrap kwargs
   = Raise (AssertionError arity_msg)
   <-> supplied m points kwargs <> ndim m)
  /\ (derivate KD uninit m points interp extrap kwargs
      = Raise (AssertionError arity_msg)
      <-> supplied m points kwargs <> ndim m).
Proof.
  split.
  - rewrite <- query_args_arity. unfold interpolation. split.
    + intros H. apply bind_Raise in H. destruct H as [H | (args & _ & H)]; [exact H|].
      exfalso. revert H.
      apply never_bind; [apply first_arg_never|]; intros a0 _.
      apply never_bind; [apply NDTable_t_init_never|]; intros tbl _.
      apply never_bind; [apply INTERP_METH_getitem_never|]; intros im _.
      apply never_bind; [apply EXTRAP_METH_getitem_never|]; intros em _.
      apply never_bind; [|intros; apply finish_never].
      unfold evaluate_interpolation.
      apply never_bind; [apply eval_from_never | intros; apply never_Ok].
    + intros ->. reflexivity.
  - rewrite <- query_args_arity. unfold derivate. split.
    + intros H. apply bind_Raise in H. destruct H as [H | (args & _ & H)]; [exact H|].
      exfalso. revert H.
      apply never_bind; [apply first_arg_never|]; intros a0 _.
      apply never_bind; [apply NDTable_t_init_never|]; intros tbl _.
      apply never_bind; [apply INTERP_METH_getitem_never|]; intros im _.
      apply never_bind; [apply EXTRAP_METH_getitem_never|]; intros em _.
      apply never_bind; [|intros; apply finish_never].
      unfold evaluate_derivative.
      apply never_bind; [apply eval_from_never | intros; apply never_Ok].
    + intros ->. reflexivity.
Qed.

Lemma compatible_false lens mx n :
  n ∈ lens -> n <> 1 -> n <> mx -> compatible lens mx = false.
Proof.
  intros Hin H1 Hmx. unfold compatible.
  apply not_true_is_false. intros Hall.
  rewrite forallb_forall in Hall.
  apply list_elem_of_In in Hin. specialize (Hall n Hin).
  apply orb_true_iff in Hall. rewrite !Nat.eqb_eq in Hall.
  destruct Hall; contradiction.
Qed.

Lemma query_args_mismatch m points kwargs args lens n :
  supplied m points kwargs = ndim m ->
  bind_args (dims m) kwargs points = Ok args ->
  traverse (fun kv => arg_len kv.2) args = Ok lens ->
  n ∈ lens -> n <> 1 -> n <> foldr Nat.max 0 lens ->
  query_args m points kwargs = Raise (AssertionError broadcast_msg).
Proof.
  intros Hs Hb Ht Hin H1 Hmx. unfold query_args.
  destruct (decide _) as [_|Hne]; [|contradiction].
  rewrite Hb. simpl. rewrite Ht. simpl.
  destruct lens as [|l lens]; [inversion Hin|].
  change (py_max (l :: lens)) with (Ok (foldr Nat.max 0 (l :: lens))).
  unfold bind.
  rewrite (compatible_false (l :: lens) _ n Hin H1 Hmx). reflexivity.
Qed.

(** C4: when the call has [ndim] arguments and one of them has a length
    that is neither 1 nor the largest length among them, [interpolation]
    and [derivate] fail on the broadcasting assertion, whatever the
    native routine would return: nothing is evaluated. *)
Theorem broadcast_mismatch K KD uninit m points interp extrap kwargs args lens n :
  supplied m points kwargs = ndim m ->
  bind_args (dims m) kwargs points = Ok args ->
  traverse (fun kv => arg_len kv.2) args = Ok lens ->
  n ∈ lens -> n <> 1 -> n <> foldr Nat.max 0 lens ->
  interpolation K uninit m points interp extrap kwargs
  = Raise (AssertionError broadcast_msg)
  /\ derivate KD uninit m points interp extrap kwargs
     = Raise (AssertionError broadcast_msg).
Proof.
  intros Hs Hb Ht Hin H1 Hmx.
  unfold interpolation, derivate.
  rewrite (query_args_mismatch m points kwargs args lens n Hs Hb Ht Hin H1 Hmx).
  split; reflexivity.
Qed.

(** ** Length-one arrays *)

Lemma plane_table_init : NDTable_t_init plane = Ok plane_table.
Proof. vm_compute. reflexivity. Qed.

Lemma row_table_init : NDTable_t_init row = Ok row_table.
Proof. vm_compute. reflexivity. Qed.

Lemma plane_first_short K uninit :
  interpolation K uninit plane
    [PyArray (vec [0.5]%float); PyArray (vec [0; 1; 2]%float)] None None ∅
  = (let r := K plane_table 2%Z [0.5; 0]%float linear hold_x in
     if decide (r.1 = 0%Z) then Ok (PyFloat r.2)
     else Raise (AssertionError native_msg)).
Proof.
  unfold interpolation.
  replace (query_args plane _ ∅) with (Ok [vec [0.5]%float; vec [0; 1; 2]%float])
    by (vm_compute; reflexivity).
  cbn [bind first_arg]. rewrite plane_table_init. cbn [bind].
  change (INTERP_METH_getitem (default "linear" None)) with (Ok linear).
  change (EXTRAP_METH_getitem (default "hold" None)) with (Ok hold_x).
  cbn [bind].
  unfold evaluate_interpolation.
  change (c_int (Z.of_nat (ndim plane))) with 2%Z.
  change (c_int (Z.of_nat (size_of (np_empty uninit (shape (vec [0.5%float]))))))
    with 1%Z.
  change (Z.to_nat 1) with 1. change (Z.to_nat 2) with 2.
  cbn [eval_from].
  change (gather [vec [0.5%float]; vec [0%float; 1%float; 2%float]] 2 0)
    with (Some [0.5; 0]%float).
  cbn [fmap option_fmap option_map].
  destruct (K plane_table 2%Z [0.5; 0]%float linear hold_x) as [st v].
  cbn [fst snd]. destruct (decide (st = 0%Z)) as [->|Hst].
  - reflexivity.
  - cbn. unfold finish. cbn. destruct (decide (st = 0%Z)); [contradiction|reflexivity].
Qed.

Lemma plane_second_short K uninit :
  interpolation K uninit plane
    [PyArray (vec [0; 1; 2]%float); PyArray (vec [0.5]%float)] None None ∅
  = (let r := K plane_table 2%Z [0; 0.5]%float linear hold_x in
     if decide (r.1 = 0%Z) then Raise Undefined
     else Raise (AssertionError native_msg)).
Proof.
  unfold interpolation.
  replace (query_args plane _ ∅) with (Ok [vec [0; 1; 2]%float; vec [0.5]%float])
    by (vm_compute; reflexivity).
  cbn [bind first_arg]. rewrite plane_table_init. cbn [bind].
  change (INTERP_METH_getitem (default "linear" None)) with (Ok linear).
  change (EXTRAP_METH_getitem (default "hold" None)) with (Ok hold_x).
  cbn [bind].
  unfold evaluate_interpolation.
  change (c_int (Z.of_nat (ndim plane))) with 2%Z.
  change (c_int (Z.of_nat (size_of (np_empty uninit (shape (vec [0; 1; 2]%float))))))
    with 3%Z.
  change (Z.to_nat 3) with 3. change (Z.to_nat 2) with 2.
  cbn [eval_from].
  change (gather [vec [0%float; 1%float; 2%float]; vec [0.5%float]] 2 0)
    with (Some [0; 0.5]%float).
  change (gather [vec [0%float; 1%float; 2%float]; vec [0.5%float]] 2 1)
    with (@None (list float)).
  cbn [fmap option_fmap option_map].
  destruct (K plane_table 2%Z [0; 0.5]%float linear hold_x) as [st v].
  cbn [fst snd]. destruct (decide (st = 0%Z)) as [->|Hst].
  - reflexivity.
  - cbn. unfold finish. cbn. destruct (decide (st = 0%Z)); [contradiction|reflexivity].
Qed.

Lemma plane_first_short_derivate KD uninit :
  derivate KD uninit plane
    [PyArray (vec [0.5]%float); PyArray (vec [0; 1; 2]%float)] None None ∅
  = (let r := KD plane_table 2%Z [0.5; 0]%float [1; 1]%float linear hold_x in
     if decide (r.1 = 0%Z) then Ok (PyFloat r.2)
     else Raise (AssertionError native_msg)).
Proof.
  unfold derivate.
  replace (query_args plane _ ∅) with (Ok [vec [0.5]%float; vec [0; 1; 2]%float])
    by (vm_compute; reflexivity).
  cbn [bind first_arg]. rewrite plane_table_init. cbn [bind].
  change (INTERP_METH_getitem (default "linear" None)) with (Ok linear).
  change (EXTRAP_METH_getitem (default "hold" None)) with (Ok hold_x).
  cbn [bind].
  unfold evaluate_derivative.
  change (c_int (Z.of_nat (ndim plane))) with 2%Z.
  change (c_int (Z.of_nat (size_of (np_empty uninit (shape (vec [0.5%float]))))))
    with 1%Z.
  change (Z.to_nat 1) with 1. change (Z.to_nat 2) with 2.
  cbn [eval_from].
  change (gather [vec [0.5%float]; vec [0%float; 1%float; 2%float]] 2 0)
    with (Some [0.5; 0]%float).
  change (gather (map ones_like [vec [0.5%float]; vec [0%float; 1%float; 2%float]]) 2 0)
    with (Some [1; 1]%float).
  cbn [mbind option_bind].
  destruct (KD plane_table 2%Z [0.5; 0]%float [1; 1]%float linear hold_x) as [st v].
  cbn [fst snd]. destruct (decide (st = 0%Z)) as [->|Hst].
  - reflexivity.
  - cbn. unfold finish. cbn. destruct (decide (st = 0%Z)); [contradiction|reflexivity].
Qed.

(** C1: the query [([0.5], [0, 1, 2])] on a two-dimensional grid passes
    the length check with N = 3, but the length-one array is handed to
    the native routine as it is: the coordinate arrays have lengths 1
    and 3, one point is evaluated and one number comes back.  With the
    two arguments swapped the native routine is asked for three points
    and reads past the end of the length-one array. *)
Theorem length_one_array_kept K uninit :
  traverse arg_len [PyArray (vec [0.5]%float); PyArray (vec [0; 1; 2]%float)]
  = Ok [1; 3]
  /\ py_max [1; 3] = Ok 3
  /\ query_args plane
       [PyArray (vec [0.5]%float); PyArray (vec [0; 1; 2]%float)] ∅
     = Ok [vec [0.5]%float; vec [0; 1; 2]%float]
  /\ interpolation K uninit plane
       [PyArray (vec [0.5]%float); PyArray (vec [0; 1; 2]%float)] None None ∅
     = (let r := K plane_table 2%Z [0.5; 0]%float linear hold_x in
        if decide (r.1 = 0%Z) then Ok (PyFloat r.2)
        else Raise (AssertionError native_msg))
  /\ interpolation K uninit plane
       [PyArray (vec [0; 1; 2]%float); PyArray (vec [0.5]%float)] None None ∅
     = (let r := K plane_table 2%Z [0; 0.5]%float linear hold_x in
        if decide (r.1 = 0%Z) then Raise Undefined
        else Raise (AssertionError native_msg)).
Proof.
  split; [reflexivity|]. split; [reflexivity|].
  split; [vm_compute; reflexivity|].
  split; [apply plane_first_short | apply plane_second_short].
Qed.

(** C7: the successful calls [interpolation([0.5], [0, 1, 2])] and
    [derivate([0.5], [0, 1, 2])] on a two-dimensional grid have
    broadcast length N = 3 and return a single number, never an array of
    length 3. *)
Theorem single_number_for_three_points K KD uninit :
  py_max [1; 3] = Ok 3
  /\ (forall a,
        interpolation K uninit plane
          [PyArray (vec [0.5]%float); PyArray (vec [0; 1; 2]%float)] None None ∅
        <> Ok (PyArray a))
  /\ (forall a,
        derivate KD uninit plane
          [PyArray (vec [0.5]%float); PyArray (vec [0; 1; 2]%float)] None None ∅
        <> Ok (PyArray a))
  /\ (forall v,
        interpolation (fun _ _ _ _ _ => (0%Z, v)) uninit plane
          [PyArray (vec [0.5]%float); PyArray (vec [0; 1; 2]%float)] None None ∅
        = Ok (PyFloat v))
  /\ (forall v,
        derivate (fun _ _ _ _ _ _ => (0%Z, v)) uninit plane
          [PyArray (vec [0.5]%float); PyArray (vec [0; 1; 2]%float)] None None ∅
        = Ok (PyFloat v)).
Proof.
  split; [reflexivity|]. split; [|split; [|split]].
  - intros a. rewrite plane_first_short. cbv zeta.
    destruct (decide _); discriminate.
  - intros a. rewrite plane_first_short_derivate. cbv zeta.
    destruct (decide _); discriminate.
  - intros v. rewrite plane_first_short. reflexivity.
  - intros v. rewrite plane_first_short_derivate. reflexivity.
Qed.

Lemma row_resample K uninit :
  resample K uninit row [] None None ∅
  = (let r0 := K row_table 2%Z [0; 0]%float linear hold_x in
     let r1 := K row_table 2%Z [0; 1]%float linear hold_x in
     if decide (r0.1 = 0%Z /\ r1.1 = 0%Z) then Raise ValueError
     else Raise (AssertionError native_msg)).
Proof.
  unfold resample.
  replace (resample_args row (dims row) ∅ [])
    with (Ok [("x", PyArray (vec [0]%float)); ("y", PyArray (vec [0; 1]%float))])
    by (vm_compute; reflexivity).
  cbn [bind].
  replace (meshgrid _) with [NDArray [1; 2] [0; 0]%float; NDArray [1; 2] [0; 1]%float]
    by (vm_compute; reflexivity).
  unfold interpolation.
  replace (query_args row _ ∅)
    with (Ok [NDArray [1; 2] [0; 0]%float; NDArray [1; 2] [0; 1]%float])
    by (vm_compute; reflexivity).
  cbn [bind first_arg]. rewrite row_table_init. cbn [bind].
  change (INTERP_METH_getitem _) with (Ok linear).
  change (EXTRAP_METH_getitem _) with (Ok hold_x).
  cbn [bind].
  unfold evaluate_interpolation.
  change (c_int (Z.of_nat (ndim row))) with 2%Z.
  change (c_int (Z.of_nat (size_of _))) with 2%Z.
  change (Z.to_nat 2) with 2.
  cbn [eval_from].
  change (gather _ 2 0) with (Some [0; 0]%float).
  change (gather _ 2 1) with (Some [0; 1]%float).
  cbn [fmap option_fmap option_map].
  destruct (K row_table 2%Z [0; 0]%float linear hold_x) as [st0 v0].
  destruct (K row_table 2%Z [0; 1]%float linear hold_x) as [st1 v1].
  cbn [fst snd].
  destruct (decide (st0 = 0%Z)) as [->|H0].
  - destruct (decide (st1 = 0%Z)) as [->|H1].
    + vm_compute. reflexivity.
    + rewrite decide_False by (intros [_ ?]; contradiction).
      cbn. unfold finish. cbn.
      destruct (decide (st1 = 0%Z)); [contradiction | reflexivity].
  - rewrite decide_False by (intros [? _]; contradiction).
    cbn. unfold finish. cbn.
    destruct (decide (st0 = 0%Z)); [contradiction | reflexivity].
Qed.

Lemma row_wf : mesh_wf row.
Proof.
  split; [|split; reflexivity].
  apply (bool_decide_unpack _). vm_compute. exact I.
Qed.

(** C5: the grid [row] has one breakpoint along [x] and two along [y].
    Resampled on its own breakpoints, the two points of the dense mesh
    are evaluated, but [interpolation] returns [values[0]] because the
    length of [values] is 1, so the data reaching the constructor has one
    axis for two coordinates and no grid is built: the call raises for
    every native routine. *)
Theorem resample_single_row K uninit :
  mesh_wf row
  /\ resample K uninit row [] None None ∅
     = (let r0 := K row_table 2%Z [0; 0]%float linear hold_x in
        let r1 := K row_table 2%Z [0; 1]%float linear hold_x in
        if decide (r0.1 = 0%Z /\ r1.1 = 0%Z) then Raise ValueError
        else Raise (AssertionError native_msg))
  /\ (forall m', resample K uninit row [] None None ∅ <> Ok m')
  /\ interpolation (fun _ _ p _ _ => (0%Z, nth 1 p 0%float)) uninit row
       [PyArray (NDArray [1; 2] [0; 0]%float);
        PyArray (NDArray [1; 2] [0; 1]%float)] (Some "linear") (Some "hold") ∅
     = Ok (PyArray (NDArray [2] [0; 1]%float)).
Proof.
  split; [apply row_wf|]. split; [apply row_resample|]. split.
  - intros m'. rewrite row_resample. cbv zeta. destruct (decide _); discriminate.
  - vm_compute. reflexivity.
Qed.

(** ** Dense meshes *)

Section UniformBlocks.

Context {A B : Type} (f : A -> list B) (P : nat).
Hypothesis block_length : forall a, length (f a) = P.

Lemma length_flat_map_uniform (x : list A) :
  length (flat_map f x) = length x * P.
Proof.
  induction x as [|a x IH]; simpl; [reflexivity|].
  rewrite length_app, block_length, IH. reflexivity.
Qed.

(** Entry [k] of a concatenation of blocks of the same length [P] is
    entry [k mod P] of block [k / P]. *)
Lemma lookup_flat_map_uniform (x : list A) (k : nat) :
  0 < P ->
  flat_map f x !! k = x !! (k / P) ≫= fun a => f a !! (k mod P).
Proof.
  intros HP. revert k. induction x as [|a x IH]; intros k; simpl.
  - rewrite !lookup_nil. reflexivity.
  - destruct (decide (k < P)) as [Hlt|Hge].
    + rewrite lookup_app_l by (rewrite block_length; exact Hlt).
      rewrite Nat.div_small, Nat.mod_small by exact Hlt. reflexivity.
    + rewrite lookup_app_r by (rewrite block_length; lia).
      rewrite block_length, IH.
      assert (Hk : k = (k - P) + 1 * P) by lia.
      assert (Hd : k / P = S ((k - P) / P)).
      { rewrite Hk at 1. rewrite Nat.div_add by lia. lia. }
      assert (Hm : k mod P = (k - P) mod P).
      { rewrite Hk at 1. apply Nat.Div0.mod_add. }
      rewrite Hd, Hm. reflexivity.
Qed.

End UniformBlocks.

Lemma length_stretch inner (x : list float) :
  length (stretch inner x) = length x * inner.
Proof.
  unfold stretch. apply length_flat_map_uniform.
  intros v. apply length_replicate.
Qed.

Lemma lookup_stretch inner (x : list float) k :
  0 < inner -> stretch inner x !! k = x !! (k / inner).
Proof.
  intros Hi. unfold stretch.
  rewrite (lookup_flat_map_uniform _ inner) by (intros; apply length_replicate || exact Hi).
  destruct (x !! (k / inner)) as [v|]; [|reflexivity]. simpl.
  apply lookup_replicate_2. apply Nat.mod_upper_bound. lia.
Qed.

Lemma length_tile outer (x : list float) :
  length (tile outer x) = outer * length x.
Proof.
  unfold tile. induction outer as [|n IH]; simpl; [reflexivity|].
  rewrite length_app, IH. reflexivity.
Qed.

Lemma lookup_tile outer (x : list float) k :
  k < outer * length x -> tile outer x !! k = x !! (k mod length x).
Proof.
  unfold tile. revert k. induction outer as [|n IH]; intros k Hk; [lia|].
  simpl. destruct (decide (k < length x)) as [Hlt|Hge].
  - rewrite lookup_app_l by exact Hlt. rewrite Nat.mod_small by exact Hlt.
    reflexivity.
  - rewrite lookup_app_r by lia. rewrite IH by lia.
    assert (Hm : k mod length x = (k - length x) mod length x).
    { replace k with ((k - length x) + 1 * length x) at 1 by lia.
      apply Nat.Div0.mod_add. }
    rewrite Hm. reflexivity.
Qed.

Lemma length_cartesian (xs : list (list float)) :
  length (cartesian xs) = prod_list (map length xs).
Proof.
  induction xs as [|x xs IH]; simpl; [reflexivity|].
  rewrite (length_flat_map_uniform _ (length (cartesian xs)))
    by (intros; apply length_map).
  rewrite IH. reflexivity.
Qed.

Lemma lookup_cartesian_cons (x : list float) (xs : list (list float)) k :
  0 < prod_list (map length xs) ->
  cartesian (x :: xs) !! k
  = x !! (k / prod_list (map length xs)) ≫= fun v =>
    cons v <$> cartesian xs !! (k mod prod_list (map length xs)).
Proof.
  intros HP. simpl.
  rewrite (lookup_flat_map_uniform _ (prod_list (map length xs)));
    [| intros; rewrite length_map; apply length_cartesian | exact HP].
  destruct (x !! _) as [v|]; [|reflexivity]. simpl.
  apply list_lookup_fmap.
Qed.

(** Entry [k] of every buffer of a dense mesh: together they are point
    [k] of the cartesian product. *)
Lemma lookup_meshgrid_flat (xs : list (list float)) (outer k : nat) :
  k < outer * prod_list (map length xs) ->
  mapM (fun b => b !! k) (meshgrid_flat outer xs)
  = cartesian xs !! (k mod prod_list (map length xs)).
Proof.
  revert outer k. induction xs as [|x xs IH]; intros outer k Hk.
  - change (prod_list (map length [])) with 1.
    rewrite Nat.mod_1_r. reflexivity.
  - set (P := prod_list (map length xs)).
    assert (HP : 0 < P).
    { destruct (decide (0 < P)); [assumption|].
      exfalso. cbn [map prod_list foldr] in Hk. fold (prod_list (map length xs)) in Hk.
      fold P in Hk. nia. }
    change (prod_list (map length (x :: xs))) with (length x * P) in *.
    rewrite lookup_cartesian_cons by exact HP. fold P.
    cbn [meshgrid_flat mapM]. fold P.
    rewrite lookup_tile by (rewrite length_stretch; lia).
    rewrite length_stretch, lookup_stretch by exact HP.
    rewrite (IH (outer * length x) k) by (fold P; lia). fold P.
    replace (k mod (length x * P) mod P) with (k mod P).
    2:{ rewrite (Nat.mul_comm (length x) P).
        rewrite Nat.Div0.mod_mul_r.
        rewrite (Nat.mul_comm P), Nat.Div0.mod_add, Nat.Div0.mod_mod. reflexivity. }
    destruct (x !! _) as [v|]; [|reflexivity].
    cbn. destruct (cartesian xs !! (k mod P)); reflexivity.
Qed.

Lemma mapM_seq_lookup {A B} (g : A -> option B) (pre cols : list A) :
  mapM (fun d => (pre ++ cols) !! d ≫= g) (seq (length pre) (length cols))
  = mapM g cols.
Proof.
  revert pre. induction cols as [|a cols IH]; intros pre; [reflexivity|].
  cbn [length seq mapM].
  rewrite list_lookup_middle by reflexivity. cbn [mbind option_bind].
  specialize (IH (pre ++ [a])).
  rewrite <- app_assoc, length_app in IH. cbn [app length] in IH.
  rewrite Nat.add_1_r in IH. rewrite IH. reflexivity.
Qed.

Lemma gather_all (cols : list ndarray) (k : nat) :
  gather cols (length cols) k = mapM (fun a => flat a !! k) cols.
Proof. unfold gather. apply (mapM_seq_lookup _ [] cols). Qed.

Lemma mapM_map {A B C} (g : B -> option C) (h : A -> B) (l : list A) :
  mapM g (map h l) = mapM (fun a => g (h a)) l.
Proof.
  induction l as [|a l IH]; [reflexivity|].
  cbn. destruct (g (h a)); [|reflexivity]. cbn. rewrite IH. reflexivity.
Qed.

Lemma length_meshgrid_flat outer (xs : list (list float)) :
  length (meshgrid_flat outer xs) = length xs.
Proof.
  revert outer. induction xs as [|x xs IH]; intros outer; simpl; [reflexivity|].
  rewrite IH. reflexivity.
Qed.

Lemma length_meshgrid (xs : list pyval) : length (meshgrid xs) = length xs.
Proof.
  unfold meshgrid. rewrite length_map, length_meshgrid_flat, length_map.
  reflexivity.
Qed.

(** Entry [k] of the arrays of [np.meshgrid] is point [k] of the
    cartesian product of the flattened arguments. *)
Lemma gather_meshgrid (xs : list pyval) (k : nat) :
  k < prod_list (map length (map ravel xs)) ->
  gather (meshgrid xs) (length xs) k = cartesian (map ravel xs) !! k.
Proof.
  intros Hk.
  rewrite <- (length_meshgrid xs), gather_all.
  unfold meshgrid. rewrite mapM_map. cbn [flat].
  rewrite lookup_meshgrid_flat by lia.
  rewrite Nat.mod_small by exact Hk. reflexivity.
Qed.


Lemma eval_from_length f k n r :
  eval_from f k n = Ok r -> r.1 = 0%Z -> length r.2 = n.
Proof.
  revert k r. induction n as [|n IH]; intros k r He Hst; simpl in He.
  - injection He as <-. reflexivity.
  - destruct (f k) as [[st v]|]; [|discriminate].
    destruct (decide (st = 0%Z)) as [->|Hne].
    + inv_bind He. injection He as <-. cbn in *. f_equal. eapply IH; eassumption.
    + injection He as <-. cbn in Hst. contradiction.
Qed.

(** ** Evaluation over a dense mesh *)

Lemma c_int_small (z : Z) : (0 <= z < 2 ^ 31)%Z -> c_int z = z.
Proof.
  intros Hz. unfold c_int.
  rewrite Z.mod_small by lia. lia.
Qed.

Lemma supplied_positional m (points : list pyval) :
  supplied m points ∅ = length points.
Proof.
  unfold supplied. rewrite dom_empty_L, intersection_empty_r_L, size_empty.
  reflexivity.
Qed.



Lemma NDTable_t_init_ndim m tbl :
  NDTable_t_init m = Ok tbl -> ndim m <= MAX_NDIMS.
Proof.
  unfold NDTable_t_init, ARRAY_MAX_NDIMS. intros H.
  destruct (decide _) as [Hle|]; [|discriminate].
  rewrite length_map in Hle. exact Hle.
Qed.

Lemma shape_meshgrid (xs : list pyval) (a : ndarray) :
  a ∈ meshgrid xs -> shape a = map length (map ravel xs).
Proof.
  unfold meshgrid. intros Ha. apply list_elem_of_fmap in Ha.
  destruct Ha as (b & -> & _). reflexivity.
Qed.

(** What [values[0] if len(values) == 1 else values] returns. *)
Lemma unwrap_cases ss vals nv :
  unwrap (NDArray ss vals) = Ok nv ->
  (head ss <> Some 1 /\ nv = PyArray (NDArray ss vals))
  \/ (exists v, ss = [1] /\ head vals = Some v /\ nv = PyFloat v)
  \/ (exists s rest, ss = 1 :: s :: rest
        /\ nv = PyArray (NDArray (s :: rest) (take (prod_list (s :: rest)) vals))).
Proof.
  unfold unwrap, py_len. cbn [shape].
  destruct ss as [|n ss]; [discriminate|]. cbn [bind].
  destruct (decide (n = 1)) as [->|Hn].
  - unfold getitem0. cbn [shape flat]. destruct ss as [|s rest].
    + destruct vals as [|v vals]; [discriminate|].
      intros H. injection H as <-. right. left. exists v. repeat split.
    + intros H. injection H as <-. right. right. exists s, rest. split; reflexivity.
  - intros H. injection H as <-. left. split; [|reflexivity].
    simpl. congruence.
Qed.


(** ** The coordinates of a resampling *)

Lemma resample_args_choice m ds kwargs points args :
  resample_args m ds kwargs points = Ok args ->
  map fst args = ds
  /\ forall i d v, args !! i = Some (d, v) ->
       resample_choice m ds kwargs points i d = Ok v.
Proof.
  revert points args. induction ds as [|d0 ds IH]; intros points args Hr.
  - injection Hr as <-. split; [reflexivity|]. intros i d v Hi.
    rewrite lookup_nil in Hi. discriminate.
  - cbn [resample_args] in Hr. unfold resample_choice.
    destruct (kwargs !! d0) as [v0|] eqn:Hk.
    + open_bind Hr as r Hr'. injection Hr as <-.
      destruct (IH _ _ Hr') as [Hfst Hch]. split; [simpl; f_equal; exact Hfst|].
      intros [|i] d v Hi.
      * injection Hi as <- <-. rewrite Hk. reflexivity.
      * specialize (Hch i d v Hi). unfold resample_choice in Hch.
        destruct (kwargs !! d); [exact Hch|].
        cbn [take]. rewrite filter_cons_False; [exact Hch|].
        intros Hn. apply Hn. apply elem_of_dom. eauto.
    + assert (Hd0 : d0 ∉ dom kwargs) by (apply not_elem_of_dom; exact Hk).
      destruct points as [|p ps].
      * open_bind Hr as c Hc. open_bind Hr as r Hr'. injection Hr as <-.
        destruct (IH _ _ Hr') as [Hfst Hch]. split; [simpl; f_equal; exact Hfst|].
        intros [|i] d v Hi.
        -- injection Hi as <- <-. rewrite Hk, lookup_nil, Hc. reflexivity.
        -- specialize (Hch i d v Hi). unfold resample_choice in Hch.
           destruct (kwargs !! d); [exact Hch|].
           rewrite lookup_nil in *. exact Hch.
      * open_bind Hr as r Hr'. injection Hr as <-.
        destruct (IH _ _ Hr') as [Hfst Hch]. split; [simpl; f_equal; exact Hfst|].
        intros [|i] d v Hi.
        -- injection Hi as <- <-. rewrite Hk. reflexivity.
        -- specialize (Hch i d v Hi). unfold resample_choice in Hch.
           destruct (kwargs !! d); [exact Hch|].
           cbn [take]. rewrite filter_cons_True by exact Hd0. exact Hch.
Qed.

(** ** The construction of the resampled mesh *)





Lemma c_int_le (z : Z) : (0 <= z)%Z -> (c_int z <= z)%Z.
Proof.
  intros Hz. unfold c_int.
  pose proof (Z.mod_le (z + 2 ^ 31) (2 ^ 32)) as H. lia.
Qed.




(** ** When a resampling succeeds *)

Lemma traverse_map {A B} (f : A -> res B) (g : A -> B) (l : list A) :
  (forall a, a ∈ l -> f a = Ok (g a)) -> traverse f l = Ok (map g l).
Proof.
  induction l as [|a l IH]; intros H; [reflexivity|].
  simpl. rewrite (H a) by left. simpl.
  rewrite IH by (intros b Hb; apply H; right; exact Hb). reflexivity.
Qed.

Lemma bind_args_positional_ok ds (points : list pyval) :
  length points = length ds -> bind_args ds ∅ points = Ok (zip ds points).
Proof.
  revert points. induction ds as [|d ds IH]; intros [|p ps] Hl;
    try discriminate; [reflexivity|].
  simpl. rewrite lookup_empty, IH by (simpl in Hl; lia). reflexivity.
Qed.

Lemma max_constant (s0 : nat) {A} (l : list A) :
  l <> [] -> foldr Nat.max 0 (map (fun _ => s0) l) = s0.
Proof.
  induction l as [|a l IH]; [contradiction|]. intros _.
  destruct l as [|b l]; simpl in *; [lia|].
  rewrite IH by discriminate. lia.
Qed.

Lemma compatible_constant (s0 : nat) {A} (l : list A) :
  compatible (map (fun _ => s0) l) s0 = true.
Proof.
  unfold compatible. apply forallb_forall. intros n Hn.
  apply in_map_iff in Hn. destruct Hn as (_ & <- & _).
  rewrite Nat.eqb_refl. reflexivity.
Qed.

Lemma snd_zip_arrays ds (arrs : list ndarray) mx :
  length arrs = length ds ->
  map (fun kv : string * pyval => as_array mx kv.2) (zip ds (map PyArray arrs))
  = arrs.
Proof.
  revert ds. induction arrs as [|a arrs IH]; intros [|d ds] Hl;
    try discriminate; [reflexivity|].
  simpl. rewrite IH by (simpl in Hl; lia). reflexivity.
Qed.

(** The arrays of a dense mesh pass the checks of [interpolation] as
    they are. *)
Lemma query_args_meshgrid m (xs : list pyval) :
  xs <> [] ->
  length xs = length (dims m) ->
  length xs = ndim m ->
  query_args m (map PyArray (meshgrid xs)) ∅ = Ok (meshgrid xs).
Proof.
  intros Hne Hl Hnd. unfold query_args.
  rewrite supplied_positional, length_map, length_meshgrid.
  destruct (decide _) as [_|Hn]; [|contradiction].
  rewrite bind_args_positional_ok
    by (rewrite length_map, length_meshgrid; exact Hl).
  cbn [bind].
  set (ss := map length (map ravel xs)).
  assert (Hss : exists s0 rest, ss = s0 :: rest).
  { unfold ss. destruct xs; [contradiction|]. simpl. eauto. }
  destruct Hss as (s0 & rest & Hss).
  rewrite (traverse_map _ (fun _ => s0)).
  2:{ intros [d v] Hin. apply elem_of_zip_r in Hin. cbn [snd].
      apply list_elem_of_fmap in Hin. destruct Hin as (a & -> & Ha).
      unfold arg_len, py_len. rewrite (shape_meshgrid xs a Ha).
      fold ss. rewrite Hss. reflexivity. }
  assert (Hz : zip (dims m) (map PyArray (meshgrid xs)) <> []).
  { intros Hz. apply (f_equal length) in Hz.
    rewrite length_zip_with, length_map, length_meshgrid in Hz.
    destruct xs; [contradiction|]. simpl in Hz, Hl. lia. }
  cbn [bind]. unfold py_max.
  destruct (map (fun _ => s0) (zip (dims m) (map PyArray (meshgrid xs)))) eqn:Hm.
  { destruct (zip (dims m) (map PyArray (meshgrid xs))); [contradiction|discriminate]. }
  rewrite <- Hm. cbn [bind].
  rewrite max_constant by exact Hz.
  rewrite compatible_constant.
  rewrite snd_zip_arrays by (rewrite length_meshgrid; exact Hl).
  reflexivity.
Qed.

Lemma eval_from_points_ok (F : list float -> Z * float)
    (g : nat -> option (list float)) (pts : list (list float)) (k : nat) :
  (forall j, j < length pts -> g (k + j) = pts !! j) ->
  Forall (fun p => (F p).1 = 0%Z) pts ->
  eval_from (fun i => F <$> g i) k (length pts)
  = Ok (0%Z, map (fun p => (F p).2) pts).
Proof.
  revert k. induction pts as [|p pts IH]; intros k Hg Hall; [reflexivity|].
  cbn [length eval_from].
  pose proof (Hg 0 ltac:(simpl; lia)) as H0.
  rewrite Nat.add_0_r in H0. cbn in H0. rewrite H0.
  cbn [fmap option_fmap option_map].
  inversion Hall as [|? ? Hp Hall']; subst.
  destruct (F p) as [st v] eqn:HF. cbn [fst] in Hp. subst st.
  destruct (decide (0%Z = 0%Z)) as [_|Hn]; [|contradiction].
  rewrite IH; [| |exact Hall'].
  - cbn. rewrite HF. reflexivity.
  - intros j Hj. specialize (Hg (S j) ltac:(simpl; lia)).
    rewrite Nat.add_succ_r in Hg. exact Hg.
Qed.

Lemma first_arg_meshgrid (xs : list pyval) :
  xs <> [] ->
  exists a0, first_arg (meshgrid xs) = Ok a0
             /\ shape a0 = map length (map ravel xs).
Proof.
  intros Hne. destruct xs as [|x xs]; [contradiction|].
  unfold meshgrid. cbn [map meshgrid_flat first_arg]. eexists. split; reflexivity.
Qed.

Lemma interpolation_meshgrid_ok K uninit m (xs : list pyval)
    interp extrap tbl im em :
  xs <> [] ->
  length xs = length (dims m) ->
  length xs = ndim m ->
  NDTable_t_init m = Ok tbl ->
  INTERP_METH_getitem (default "linear" interp) = Ok im ->
  EXTRAP_METH_getitem (default "hold" extrap) = Ok em ->
  (Z.of_nat (length (cartesian (map ravel xs))) < 2 ^ 31)%Z ->
  Forall (fun p => (K tbl (Z.of_nat (ndim m)) p im em).1 = 0%Z)
    (cartesian (map ravel xs)) ->
  interpolation K uninit m (map PyArray (meshgrid xs)) interp extrap ∅
  = unwrap (NDArray (map length (map ravel xs))
              (map (fun p => (K tbl (Z.of_nat (ndim m)) p im em).2)
                 (cartesian (map ravel xs)))).
Proof.
  intros Hne Hl Hnd Htbl Him Hem Hbound Hall. unfold interpolation.
  rewrite (query_args_meshgrid m xs Hne Hl Hnd). cbn [bind].
  destruct (first_arg_meshgrid xs Hne) as (a0 & -> & Hsh). cbn [bind].
  rewrite Htbl, Him, Hem. cbn [bind].
  pose proof (NDTable_t_init_ndim m tbl Htbl) as Hmax. unfold MAX_NDIMS in Hmax.
  rewrite (c_int_small (Z.of_nat (ndim m))) by lia.
  unfold evaluate_interpolation, size_of. cbn [np_empty shape flat].
  rewrite Hsh, <- length_cartesian.
  rewrite c_int_small by lia. rewrite !Nat2Z.id.
  rewrite eval_from_points_ok; [| |exact Hall].
  2:{ intros j Hj. rewrite <- Hnd. apply gather_meshgrid.
      rewrite <- length_cartesian. exact Hj. }
  cbn [bind]. unfold store, finish. cbn [fst snd].
  destruct (decide (0%Z = 0%Z)) as [_|Hn]; [|contradiction].
  rewrite drop_ge by (rewrite length_map, length_replicate; lia).
  rewrite app_nil_r. reflexivity.
Qed.

Lemma getitem_NoDup {A} (items : list (string * A)) k v :
  NoDup (map fst items) -> (k, v) ∈ items -> getitem k items = Ok v.
Proof.
  induction items as [|[k' v'] items IH]; intros Hnd Hin; [inversion Hin|].
  simpl in *. apply NoDup_cons in Hnd. destruct Hnd as [Hk' Hnd].
  destruct (decide (k = k')) as [->|Hne].
  - apply elem_of_cons in Hin. destruct Hin as [Heq|Hin]; [congruence|].
    exfalso. apply Hk'. apply list_elem_of_fmap. exists (k', v). split; [reflexivity|exact Hin].
  - apply elem_of_cons in Hin. destruct Hin as [Heq|Hin]; [congruence|].
    exact (IH Hnd Hin).
Qed.

Lemma AXES_NoDup : NoDup AXES.
Proof. apply (bool_decide_unpack _). vm_compute. exact I. Qed.

Lemma Mesh_init_ok nv (args : list (string * pyval)) d :
  filter (fun ax => ax ∈ map fst args) AXES = map fst args ->
  Forall (fun kv => one_axis kv.2) args ->
  DataArray_init nv (map (fun kv => (kv.1, ravel kv.2)) args) = Ok d ->
  Mesh_init nv args
  = Ok {| coords := map (fun kv => (kv.1, ravel kv.2)) args;
          data := d; options := default_options;
          label := None; unit := None |}.
Proof.
  intros Hax Hone Hd. unfold Mesh_init.
  assert (Hnamed : filter (fun ax => bool_decide (ax ∈ map fst args)) AXES
                   = map fst args).
  { etransitivity; [|exact Hax].
    apply list_filter_iff. intros ax. apply bool_decide_spec. }
  assert (Hall : forallb (fun kv : string * pyval => bool_decide (kv.1 ∈ AXES)) args
                 = true).
  { apply forallb_forall. intros kv Hin. apply bool_decide_eq_true_2.
    assert (Hk : kv.1 ∈ map fst args).
    { apply list_elem_of_fmap. exists kv. split; [reflexivity|].
      apply list_elem_of_In. exact Hin. }
    rewrite <- Hax in Hk. apply list_elem_of_filter in Hk. apply Hk. }
  rewrite Hall, Hnamed.
  assert (Hnd : NoDup (map fst args)).
  { rewrite <- Hax. apply NoDup_filter. exact AXES_NoDup. }
  rewrite (traverse_map _ (fun ax => (ax, match getitem ax args with
                                          | Ok v => ravel v
                                          | Raise _ => []
                                          end))).
  2:{ intros ax Hin. apply list_elem_of_fmap in Hin. destruct Hin as ([k v] & -> & Hin).
      cbn [fst]. rewrite (getitem_NoDup args k v Hnd Hin). cbn [bind].
      rewrite List.Forall_forall in Hone.
      destruct (Hone (k, v) ltac:(apply list_elem_of_In; exact Hin)) as (l & Hl).
      cbn [snd] in Hl. subst v. reflexivity. }
  cbn [bind].
  assert (Hcs : map (fun ax => (ax, match getitem ax args with
                                    | Ok v => ravel v
                                    | Raise _ => []
                                    end)) (map fst args)
                = map (fun kv => (kv.1, ravel kv.2)) args).
  { rewrite map_map. apply map_ext_in. intros [k v] Hin. cbn [fst snd].
    rewrite (getitem_NoDup args k v Hnd ltac:(apply list_elem_of_In; exact Hin)).
    reflexivity. }
  rewrite Hcs, Hd. reflexivity.
Qed.

Lemma mesh_wf_ndim m : mesh_wf m -> ndim m = length (dims m).
Proof.
  intros (_ & Hsh & _). unfold ndim, dims. rewrite Hsh, !length_map. reflexivity.
Qed.

(** Under the conditions a caller can check, [resample] returns the
    grid of the chosen coordinates filled with the values of the native
    routine at the points of their cartesian product. *)
Lemma resample_succeeds K uninit m points interp extrap kwargs args tbl im em :
  mesh_wf m ->
  filter (fun ax => ax ∈ dims m) AXES = dims m ->
  dims m <> [] ->
  resample_args m (dims m) kwargs points = Ok args ->
  Forall (fun kv => one_axis kv.2) args ->
  NDTable_t_init m = Ok tbl ->
  INTERP_METH_getitem (default "linear" interp) = Ok im ->
  EXTRAP_METH_getitem (default "hold" extrap) = Ok em ->
  head (map (fun kv => length (ravel kv.2)) args) <> Some 1 ->
  (Z.of_nat (length (cartesian (map (fun kv => ravel kv.2) args))) < 2 ^ 31)%Z ->
  Forall (fun p => (K tbl (Z.of_nat (ndim m)) p im em).1 = 0%Z)
    (cartesian (map (fun kv => ravel kv.2) args)) ->
  resample K uninit m points interp extrap kwargs
  = Ok {| coords := map (fun kv => (kv.1, ravel kv.2)) args;
          data := NDArray (map (fun kv => length (ravel kv.2)) args)
                    (map (fun p => (K tbl (Z.of_nat (ndim m)) p im em).2)
                       (cartesian (map (fun kv => ravel kv.2) args)));
          options := default_options; label := None; unit := None |}.
Proof.
  intros Hwf Hax Hne Hargs Hone Htbl Him Hem Hfirst Hbound Hall.
  destruct (resample_args_choice _ _ _ _ _ Hargs) as [Hfst _].
  assert (Hlen : length (map snd args) = length (dims m)).
  { rewrite <- Hfst, !length_map. reflexivity. }
  assert (Hxs : map snd args <> []).
  { intros Hnil. apply (f_equal length) in Hnil. rewrite Hlen in Hnil.
    destruct (dims m); [contradiction|discriminate]. }
  assert (Hcols : map ravel (map snd args) = map (fun kv => ravel kv.2) args)
    by apply map_map.
  assert (Hss : map length (map ravel (map snd args))
                = map (fun kv => length (ravel kv.2)) args).
  { rewrite !map_map. reflexivity. }
  unfold resample. rewrite Hargs. cbn [bind].
  rewrite (interpolation_meshgrid_ok K uninit m (map snd args) _ _ tbl im em);
    try assumption.
  2:{ rewrite Hlen. symmetry. apply mesh_wf_ndim. exact Hwf. }
  2:{ rewrite Hcols. exact Hbound. }
  2:{ rewrite Hcols. exact Hall. }
  rewrite Hss, Hcols.
  set (vals := map (fun p => (K tbl (Z.of_nat (ndim m)) p im em).2)
                 (cartesian (map (fun kv => ravel kv.2) args))).
  assert (Hvl : length vals
                = prod_list (map (fun kv => length (ravel kv.2)) args)).
  { unfold vals. rewrite length_map, length_cartesian, map_map. reflexivity. }
  assert (Hax' : filter (fun ax => ax ∈ map fst args) AXES = map fst args).
  { rewrite Hfst. exact Hax. }
  assert (Hsh : map (fun c : string * list float => length c.2)
                  (map (fun kv : string * pyval => (kv.1, ravel kv.2)) args)
                = map (fun kv => length (ravel kv.2)) args).
  { rewrite map_map. reflexivity. }
  destruct args as [|[d0 v0] args']; [contradiction|].
  cbn [map fst snd] in *. unfold unwrap, py_len. cbn [shape bind].
  destruct (decide (length (ravel v0) = 1)) as [H1|H1].
  { exfalso. apply Hfirst. simpl. rewrite H1. reflexivity. }
  cbn [bind].
  rewrite (Mesh_init_ok _ _ (NDArray (length (ravel v0)
                              :: map (fun kv => length (ravel kv.2)) args') vals));
    [reflexivity|exact Hax'|exact Hone|].
  unfold DataArray_init. cbn [as_data shape].
  rewrite decide_True; [reflexivity|].
  cbn [map fst snd]. rewrite map_map. reflexivity.
Qed.

Lemma getitem_total {A} d (items : list (string * A)) :
  d ∈ map fst items -> exists v, getitem d items = Ok v.
Proof.
  induction items as [|[k w] items IH]; intros Hd; [inversion Hd|].
  simpl. destruct (decide (d = k)) as [->|Hne]; [eauto|].
  apply IH. simpl in Hd. apply elem_of_cons in Hd.
  destruct Hd as [?|?]; [contradiction|assumption].
Qed.


Lemma resample_args_own m (l : list (string * list float)) :
  (forall kv, kv ∈ l -> getitem kv.1 (coords m) = Ok kv.2) ->
  resample_args m (map fst l) ∅ []
  = Ok (map (fun c => (c.1, PyArray (vec c.2))) l).
Proof.
  induction l as [|[d c] l IH]; intros H; [reflexivity|].
  cbn [map fst resample_args]. rewrite lookup_empty.
  pose proof (H (d, c) ltac:(left)) as Hd. cbn [fst snd] in Hd.
  rewrite Hd. cbn [bind snd].
  rewrite IH by (intros kv Hkv; apply H; right; exact Hkv). reflexivity.
Qed.

(** Resampling a grid on its own breakpoints gives the grid back when
    the native routine returns the stored sample at every node, the
    dimensions are axes of [AXES] in that order, and the first dimension
    does not have a single breakpoint. *)
Lemma resample_own_breakpoints K uninit m tbl :
  mesh_wf m ->
  filter (fun ax => ax ∈ dims m) AXES = dims m ->
  dims m <> [] ->
  NDTable_t_init m = Ok tbl ->
  head (shape (data m)) <> Some 1 ->
  (Z.of_nat (size_of (data m)) < 2 ^ 31)%Z ->
  map (fun p => K tbl (Z.of_nat (ndim m)) p linear hold_x)
    (cartesian (map snd (coords m)))
  = map (fun v => (0%Z, v)) (flat (data m)) ->
  resample K uninit m [] None None ∅
  = Ok {| coords := coords m; data := data m; options := default_options;
          label := None; unit := None |}.
Proof.
  intros Hwf Hax Hne Htbl Hfirst Hbound Hnodes.
  pose proof Hwf as (Hnd & Hsh & Hflat).
  set (args := map (fun c : string * list float => (c.1, PyArray (vec c.2)))
                 (coords m)).
  assert (Hargs : resample_args m (dims m) ∅ [] = Ok args).
  { unfold dims. apply resample_args_own. intros [d c] Hin.
    apply getitem_NoDup; assumption. }
  assert (Hcols : map (fun kv : string * pyval => ravel kv.2) args
                  = map snd (coords m)).
  { unfold args. rewrite map_map. reflexivity. }
  assert (Hss : map (fun kv : string * pyval => length (ravel kv.2)) args
                = shape (data m)).
  { unfold args. rewrite map_map, Hsh. reflexivity. }
  assert (Hcs : map (fun kv : string * pyval => (kv.1, ravel kv.2)) args
                = coords m).
  { unfold args. rewrite map_map. cbn [fst snd ravel vec flat].
    rewrite <- (map_id (coords m)) at 2. apply map_ext. intros [d c]. reflexivity. }
  rewrite (resample_succeeds K uninit m [] None None ∅ args tbl linear hold_x);
    try assumption; try reflexivity.
  - rewrite Hcs, Hss, Hcols. f_equal.
    rewrite <- (map_map (fun p => K tbl (Z.of_nat (ndim m)) p linear hold_x) snd).
    rewrite Hnodes, map_map. cbn [snd]. rewrite map_id.
    destruct (data m) as [sh fl]. reflexivity.
  - unfold args. apply Forall_map. apply List.Forall_forall. intros [d c] _.
    exists c. reflexivity.
  - rewrite Hss. exact Hfirst.
  - rewrite Hcols, length_cartesian.
    replace (map length (map snd (coords m))) with (shape (data m)).
    + exact Hbound.
    + rewrite Hsh, map_map. reflexivity.
  - rewrite Hcols.
    apply List.Forall_forall. intros p Hp.
    apply (in_map (fun p => K tbl (Z.of_nat (ndim m)) p linear hold_x)) in Hp.
    rewrite Hnodes in Hp. apply in_map_iff in Hp. destruct Hp as (v & Hv & _).
    rewrite <- Hv. reflexivity.
Qed.

Lemma plane_round_trip :
  resample NDT_eval_spec 0%float plane [] None None ∅ = Ok plane.
Proof.
  apply (resample_own_breakpoints NDT_eval_spec 0%float plane plane_table).
  - split; [|split; reflexivity]. apply (bool_decide_unpack _). vm_compute. exact I.
  - vm_compute. reflexivity.
  - discriminate.
  - exact plane_table_init.
  - discriminate.
  - vm_compute. reflexivity.
  - vm_compute. reflexivity.
Qed.



(** ** The shape of a result *)

Lemma store_length r (n : nat) (buf : list float) :
  length r.2 <= length buf -> length (store r buf).2 = length buf.
Proof.
  intros H. unfold store. cbn [snd]. rewrite length_app, length_drop. lia.
Qed.

(** A successful [interpolation] unwraps a buffer that has the shape of
    the first coordinate array. *)
Lemma interpolation_result K uninit m points interp extrap kwargs r :
  interpolation K uninit m points interp extrap kwargs = Ok r ->
  exists a0 rest vals,
    query_args m points kwargs = Ok (a0 :: rest)
    /\ length vals = size_of a0
    /\ unwrap (NDArray (shape a0) vals) = Ok r.
Proof.
  intros Hi. unfold interpolation in Hi.
  open_bind Hi as args Hargs. open_bind Hi as a0 Ha0.
  open_bind Hi as tbl Htbl. open_bind Hi as im Him. open_bind Hi as em Hem.
  open_bind Hi as res Hres.
  destruct args as [|a args]; [discriminate|]. injection Ha0 as ->.
  unfold evaluate_interpolation in Hres. open_bind Hres as r0 Hr0.
  injection Hres as <-. cbn [np_empty shape flat] in *.
  unfold finish in Hi. cbn [store fst] in Hi.
  destruct (decide (r0.1 = 0%Z)) as [Hst|]; [|discriminate].
  exists a0, args, (store r0 (replicate (prod_list (shape a0)) uninit)).2.
  split; [exact Hargs|]. split; [|exact Hi].
  rewrite (store_length r0 0); rewrite length_replicate; [reflexivity|].
  rewrite (eval_from_length _ _ _ _ Hr0 Hst).
  unfold size_of, np_empty. cbn [shape].
  pose proof (c_int_le (Z.of_nat (prod_list (shape a0)))). lia.
Qed.

(** When the first coordinate array has one axis of length [n], the
    result is a number if [n] is 1 and an array of length [n] otherwise. *)
Lemma interpolation_result_first K uninit m points interp extrap kwargs r a0 rest n :
  interpolation K uninit m points interp extrap kwargs = Ok r ->
  query_args m points kwargs = Ok (a0 :: rest) ->
  shape a0 = [n] ->
  (n = 1 /\ exists v, r = PyFloat v)
  \/ (n <> 1 /\ exists vals, r = PyArray (NDArray [n] vals) /\ length vals = n).
Proof.
  intros Hi Hq Hsh.
  destruct (interpolation_result _ _ _ _ _ _ _ _ Hi) as (a & rs & vals & Hq' & Hl & Hu).
  rewrite Hq in Hq'. injection Hq' as <- <-.
  rewrite Hsh in Hu. unfold size_of in Hl. rewrite Hsh in Hl.
  apply unwrap_cases in Hu.
  destruct Hu as [[Hh ->] | [(v & Hs & _ & ->) | (s & rs & Hs & _)]].
  - right. split; [intros ->; apply Hh; reflexivity|].
    exists vals. split; [reflexivity|]. rewrite Hl. cbn. lia.
  - left. injection Hs as ->. split; [reflexivity | eauto].
  - discriminate.
Qed.

(** ** Binding the arguments *)

Lemma size_dims_keywords (ds : list string) (kwargs : gmap string pyval) :
  NoDup ds ->
  size ((list_to_set ds : gset string) ∩ dom kwargs)
  = length (filter (fun d => d ∈ dom kwargs) ds).
Proof.
  induction 1 as [|d ds Hd Hnd IH].
  - rewrite list_to_set_nil, intersection_empty_l_L. apply size_empty.
  - rewrite list_to_set_cons.
    destruct (decide (d ∈ dom kwargs)) as [Hin|Hout].
    + rewrite filter_cons_True by exact Hin. cbn [length]. rewrite <- IH.
      assert (Heq : ({[d]} ∪ list_to_set ds) ∩ dom kwargs
                    = {[d]} ∪ ((list_to_set ds : gset string) ∩ dom kwargs)).
      { apply set_eq. intros x.
        rewrite elem_of_intersection, !elem_of_union, elem_of_intersection,
          elem_of_singleton.
        split.
        - intros [[->|Hx] Hk]; [left; reflexivity | right; split; assumption].
        - intros [->|[Hx Hk]]; [split; [left; reflexivity | exact Hin]
                               | split; [right; exact Hx | exact Hk]]. }
      rewrite Heq, size_union, size_singleton; [reflexivity|].
      intros x Hx1 Hx2. apply elem_of_singleton in Hx1. subst x.
      apply elem_of_intersection in Hx2. destruct Hx2 as [Hx2 _].
      apply elem_of_list_to_set in Hx2. exact (Hd Hx2).
    + rewrite filter_cons_False by exact Hout. rewrite <- IH. f_equal.
      apply set_eq. intros x.
      rewrite !elem_of_intersection, elem_of_union, elem_of_singleton.
      split.
      * intros [[->|Hx] Hk]; [contradiction | split; assumption].
      * intros [Hx Hk]. split; [right; exact Hx | exact Hk].
Qed.

Lemma bind_args_enough ds (kwargs : gmap string pyval) points :
  length (filter (fun d => d ∉ dom kwargs) ds) <= length points ->
  exists args, bind_args ds kwargs points = Ok args.
Proof.
  revert points. induction ds as [|d ds IH]; intros points Hl; [simpl; eauto|].
  simpl. destruct (kwargs !! d) eqn:Hk.
  - rewrite filter_cons_False in Hl
      by (intros Hn; apply Hn; apply elem_of_dom; eauto).
    destruct (IH points Hl) as [r ->]. simpl. eauto.
  - rewrite filter_cons_True in Hl by (apply not_elem_of_dom; exact Hk).
    destruct points as [|p ps]; [simpl in Hl; lia|].
    destruct (IH ps ltac:(simpl in Hl; lia)) as [r ->]. simpl. eauto.
Qed.

Lemma length_filter_keywords (ds : list string) (kwargs : gmap string pyval) :
  length (filter (fun d => d ∈ dom kwargs) ds)
  + length (filter (fun d => d ∉ dom kwargs) ds) = length ds.
Proof.
  induction ds as [|d ds IH]; [reflexivity|].
  destruct (decide (d ∈ dom kwargs)) as [Hin|Hout].
  - rewrite filter_cons_True by exact Hin.
    rewrite filter_cons_False by (intros Hn; exact (Hn Hin)).
    simpl. lia.
  - rewrite filter_cons_False by exact Hout.
    rewrite filter_cons_True by exact Hout.
    simpl. lia.
Qed.

(** Past the arity check the arguments of a well-formed mesh are always
    bound: no positional argument is missing. *)
Lemma bind_args_total m points kwargs :
  mesh_wf m ->
  supplied m points kwargs = ndim m ->
  exists args, bind_args (dims m) kwargs points = Ok args.
Proof.
  intros Hwf Hs. apply bind_args_enough.
  pose proof (mesh_wf_ndim m Hwf) as Hnd. destruct Hwf as (Hno & _).
  unfold supplied in Hs. rewrite (size_dims_keywords _ _ Hno), Hnd in Hs.
  pose proof (length_filter_keywords (dims m) kwargs) as Hsplit.
  lia.
Qed.

(** ** Instances *)

Lemma broadcast_mismatch_witness :
  supplied plane [PyArray (vec [0; 1]%float); PyArray (vec [0; 1; 2]%float)] ∅
  = ndim plane
  /\ 2 ∈ [2; 3] /\ 2 <> 1 /\ 2 <> foldr Nat.max 0 [2; 3]
  /\ interpolation NDT_eval_spec 0%float plane
       [PyArray (vec [0; 1]%float); PyArray (vec [0; 1; 2]%float)] None None ∅
     = Raise (AssertionError broadcast_msg)
  /\ derivate (fun _ _ _ _ _ _ => (0%Z, 0%float)) 0%float plane
       [PyArray (vec [0; 1]%float); PyArray (vec [0; 1; 2]%float)] None None ∅
     = Raise (AssertionError broadcast_msg).
Proof.
  split; [vm_compute; reflexivity|].
  split; [left|]. split; [lia|]. split; [simpl; lia|].
  apply (broadcast_mismatch NDT_eval_spec (fun _ _ _ _ _ _ => (0%Z, 0%float))
           0%float plane
           [PyArray (vec [0; 1]%float); PyArray (vec [0; 1; 2]%float)]
           None None ∅
           [("x", PyArray (vec [0; 1]%float)); ("y", PyArray (vec [0; 1; 2]%float))]
           [2; 3] 2).
  - vm_compute; reflexivity.
  - vm_compute; reflexivity.
  - reflexivity.
  - left.
  - lia.
  - simpl; lia.
Defined.

Lemma call_default_extrapolation_witness :
  extrapolate (options squares) = true
  /\ step (options squares) = false
  /\ call NDT_eval_spec 0%float squares [PyFloat 5%float]
       {| kw_interp := None; kw_extrap := None; kw_rest := ∅ |}
     = interpolation NDT_eval_spec 0%float squares [PyFloat 5%float]
         None (Some "linear") ∅.
Proof.
  split; [reflexivity|]. split; [reflexivity|].
  apply (call_default_extrapolation NDT_eval_spec 0%float squares
           [PyFloat 5%float]
           {| kw_interp := None; kw_extrap := None; kw_rest := ∅ |});
    reflexivity.
Defined.

(** The grid of the scenario with the [step] option switched on. *)
Lemma call_step_hold_witness :
  call NDT_eval_spec 0%float
    {| coords := coords squares; data := data squares;
       options := {| extrapolate := true; step := true; deepcopy := false |};
       label := None; unit := None |}
    [PyFloat 1.5%float]
    {| kw_interp := Some "linear"; kw_extrap := Some "linear"; kw_rest := ∅ |}
  = interpolation NDT_eval_spec 0%float
      {| coords := coords squares; data := data squares;
         options := {| extrapolate := true; step := true; deepcopy := false |};
         label := None; unit := None |}
      [PyFloat 1.5%float] (Some "hold") (Some "hold") ∅.
Proof.
  apply (call_step_hold NDT_eval_spec 0%float
           {| coords := coords squares; data := data squares;
              options := {| extrapolate := true; step := true; deepcopy := false |};
              label := None; unit := None |}
           [PyFloat 1.5%float]
           {| kw_interp := Some "linear"; kw_extrap := Some "linear";
              kw_rest := ∅ |}).
  reflexivity.
Defined.


(** * Further properties of the code *)

(** ** Binding of positional and named arguments *)

Lemma bind_args_choice ds kwargs points args :
  bind_args ds kwargs points = Ok args ->
  map fst args = ds
  /\ forall i d v, args !! i = Some (d, v) ->
       bind_choice ds kwargs points i d = Some v.
Proof.
  revert points args. induction ds as [|d0 ds IH]; intros points args Hb.
  - injection Hb as <-. split; [reflexivity|]. intros i d v Hi.
    rewrite lookup_nil in Hi. discriminate.
  - cbn [bind_args] in Hb. unfold bind_choice.
    destruct (kwargs !! d0) as [v0|] eqn:Hk.
    + open_bind Hb as r Hr. injection Hb as <-.
      destruct (IH _ _ Hr) as [Hfst Hch]. split; [simpl; f_equal; exact Hfst|].
      intros [|i] d v Hi.
      * injection Hi as <- <-. rewrite Hk. reflexivity.
      * specialize (Hch i d v Hi). unfold bind_choice in Hch.
        destruct (kwargs !! d); [exact Hch|].
        cbn [take]. rewrite filter_cons_False; [exact Hch|].
        intros Hn. apply Hn. apply elem_of_dom. eauto.
    + assert (Hd0 : d0 ∉ dom kwargs) by (apply not_elem_of_dom; exact Hk).
      destruct points as [|p ps]; [discriminate|].
      open_bind Hb as r Hr. injection Hb as <-.
      destruct (IH _ _ Hr) as [Hfst Hch]. split; [simpl; f_equal; exact Hfst|].
      intros [|i] d v Hi.
      * injection Hi as <- <-. rewrite Hk. reflexivity.
      * specialize (Hch i d v Hi). unfold bind_choice in Hch.
        destruct (kwargs !! d); [exact Hch|].
        cbn [take]. rewrite filter_cons_True by exact Hd0. exact Hch.
Qed.

(** X1: on a well-formed mesh, a call that passes the arity check always
    binds its arguments: no positional argument is missing, every
    dimension receives the keyword of its name or else the next
    positional argument in the order of the dimensions, and every
    positional argument is used. *)
Theorem binding_past_arity m points kwargs :
  mesh_wf m ->
  supplied m points kwargs = ndim m ->
  exists args,
    bind_args (dims m) kwargs points = Ok args
    /\ map fst args = dims m
    /\ (forall i d v, args !! i = Some (d, v) ->
          bind_choice (dims m) kwargs points i d = Some v)
    /\ length points = length (filter (fun d => d ∉ dom kwargs) (dims m)).
Proof.
  intros Hwf Hs.
  destruct (bind_args_total m points kwargs Hwf Hs) as [args Hargs].
  destruct (bind_args_choice _ _ _ _ Hargs) as [Hfst Hch].
  exists args. split; [exact Hargs|]. split; [exact Hfst|]. split; [exact Hch|].
  pose proof (mesh_wf_ndim m Hwf) as Hnd. destruct Hwf as (Hno & _).
  unfold supplied in Hs. rewrite (size_dims_keywords _ _ Hno), Hnd in Hs.
  pose proof (length_filter_keywords (dims m) kwargs). lia.
Qed.

Lemma binding_past_arity_witness :
  exists args,
    bind_args (dims plane) (<["y" := PyFloat 2%float]> ∅) [PyFloat 1%float]
    = Ok args
    /\ map fst args = dims plane
    /\ (forall i d v, args !! i = Some (d, v) ->
          bind_choice (dims plane) (<["y" := PyFloat 2%float]> ∅)
            [PyFloat 1%float] i d = Some v)
    /\ length [PyFloat 1%float]
       = length (filter (fun d => d ∉ dom (<["y" := PyFloat 2%float]> ∅
                                             : gmap string pyval))
                   (dims plane)).
Proof.
  apply (binding_past_arity plane [PyFloat 1%float] (<["y" := PyFloat 2%float]> ∅)).
  - split; [|split; reflexivity]. apply (bool_decide_unpack _). vm_compute. exact I.
  - vm_compute. reflexivity.
Defined.

Lemma bind_args_ext ds (kw1 kw2 : gmap string pyval) points :
  (forall d, d ∈ ds -> kw1 !! d = kw2 !! d) ->
  bind_args ds kw1 points = bind_args ds kw2 points.
Proof.
  revert points. induction ds as [|d ds IH]; intros points H; [reflexivity|].
  simpl. rewrite <- (H d) by left.
  assert (H' : forall d', d' ∈ ds -> kw1 !! d' = kw2 !! d')
    by (intros d' Hd'; apply H; right; exact Hd').
  destruct (kw1 !! d).
  - rewrite (IH points H'). reflexivity.
  - destruct points as [|p ps]; [reflexivity|]. rewrite (IH ps H'). reflexivity.
Qed.

Lemma query_args_ext m points (kw1 kw2 : gmap string pyval) :
  (forall d, d ∈ dims m -> kw1 !! d = kw2 !! d) ->
  query_args m points kw1 = query_args m points kw2.
Proof.
  intros H. unfold query_args.
  assert (Hs : supplied m points kw1 = supplied m points kw2).
  { unfold supplied. f_equal. f_equal. apply set_eq. intros x.
    rewrite !elem_of_intersection, !elem_of_dom, elem_of_list_to_set.
    split; intros [Hx Hk]; (split; [exact Hx|]);
      [rewrite <- (H x Hx) | rewrite (H x Hx)]; exact Hk. }
  rewrite Hs, (bind_args_ext _ kw1 kw2 points H). reflexivity.
Qed.

(** X2: keywords that do not name a dimension of the mesh are ignored by
    [interpolation] and [derivate]: dropping them changes neither the
    result nor the exception. *)
Theorem unknown_keywords_ignored K KD uninit m points interp extrap
    (kwargs : gmap string pyval) :
  interpolation K uninit m points interp extrap kwargs
  = interpolation K uninit m points interp extrap
      (filter (fun kv => kv.1 ∈ dims m) kwargs)
  /\ derivate KD uninit m points interp extrap kwargs
     = derivate KD uninit m points interp extrap
         (filter (fun kv => kv.1 ∈ dims m) kwargs).
Proof.
  assert (Hq : query_args m points kwargs
               = query_args m points (filter (fun kv => kv.1 ∈ dims m) kwargs)).
  { apply query_args_ext. intros d Hd. symmetry.
    destruct (kwargs !! d) as [v|] eqn:Hk.
    - apply map_lookup_filter_Some. split; [exact Hk | exact Hd].
    - apply map_lookup_filter_None. left. exact Hk. }
  unfold interpolation, derivate. rewrite <- Hq. split; reflexivity.
Qed.

Lemma bind_args_keywords ds (kwargs : gmap string pyval) (pts rest : list pyval) :
  length pts = length ds ->
  (forall j d p, ds !! j = Some d -> pts !! j = Some p -> kwargs !! d = Some p) ->
  bind_args ds kwargs rest = Ok (zip ds pts).
Proof.
  revert pts. induction ds as [|d ds IH]; intros [|p pts] Hl H;
    try discriminate; [reflexivity|].
  cbn [bind_args]. rewrite (H 0 d p eq_refl eq_refl).
  rewrite (IH pts); [reflexivity | simpl in Hl; lia |].
  intros j d' p' Hd Hp. exact (H (S j) d' p' Hd Hp).
Qed.

Lemma lookup_zip_keywords ds (pts : list pyval) j d p :
  NoDup ds -> length pts = length ds ->
  ds !! j = Some d -> pts !! j = Some p ->
  (list_to_map (zip ds pts) : gmap string pyval) !! d = Some p.
Proof.
  intros Hnd Hl Hd Hp. apply elem_of_list_to_map.
  - rewrite fst_zip by lia. exact Hnd.
  - apply (list_elem_of_lookup_2 _ j).
    rewrite lookup_zip_with, Hd, Hp. reflexivity.
Qed.

Lemma filter_all {A} (P : A -> Prop) `{forall x, Decision (P x)} (l : list A) :
  (forall x, x ∈ l -> P x) -> filter P l = l.
Proof.
  induction l as [|a l IH]; intros H'; [reflexivity|].
  rewrite filter_cons_True by (apply H'; left).
  rewrite IH by (intros x Hx; apply H'; right; exact Hx). reflexivity.
Qed.

Lemma supplied_keywords m (pts : list pyval) :
  NoDup (dims m) -> length pts = length (dims m) ->
  supplied m [] (list_to_map (zip (dims m) pts)) = length pts.
Proof.
  intros Hnd Hl. unfold supplied.
  rewrite (size_dims_keywords _ _ Hnd), dom_list_to_map_L, fst_zip by lia.
  cbn [length]. rewrite Nat.add_0_r, Hl. f_equal.
  apply filter_all. intros d Hd.
  apply elem_of_list_to_set. exact Hd.
Qed.

(** X3: passing every coordinate by position or passing it under the
    name of its dimension is the same call: [interpolation] and
    [derivate] return the same result or raise the same exception. *)
Theorem positional_as_keywords K KD uninit m points interp extrap :
  NoDup (dims m) ->
  length points = length (dims m) ->
  interpolation K uninit m points interp extrap ∅
  = interpolation K uninit m [] interp extrap (list_to_map (zip (dims m) points))
  /\ derivate KD uninit m points interp extrap ∅
     = derivate KD uninit m [] interp extrap (list_to_map (zip (dims m) points)).
Proof.
  intros Hnd Hl.
  assert (Hq : query_args m points ∅
               = query_args m [] (list_to_map (zip (dims m) points))).
  { unfold query_args.
    rewrite supplied_positional, (supplied_keywords m points Hnd Hl).
    rewrite (bind_args_positional_ok _ _ Hl).
    rewrite (bind_args_keywords (dims m) _ points []); [reflexivity | exact Hl |].
    intros j d p Hd Hp. exact (lookup_zip_keywords _ _ j d p Hnd Hl Hd Hp). }
  unfold interpolation, derivate. rewrite Hq. split; reflexivity.
Qed.

Lemma positional_as_keywords_witness :
  interpolation NDT_eval_spec 0%float plane
    [PyFloat 0.5%float; PyArray (vec [0; 1; 2]%float)] None None ∅
  = interpolation NDT_eval_spec 0%float plane [] None None
      (list_to_map (zip (dims plane)
                      [PyFloat 0.5%float; PyArray (vec [0; 1; 2]%float)]))
  /\ derivate (fun _ _ _ _ _ _ => (0%Z, 0%float)) 0%float plane
       [PyFloat 0.5%float; PyArray (vec [0; 1; 2]%float)] None None ∅
     = derivate (fun _ _ _ _ _ _ => (0%Z, 0%float)) 0%float plane [] None None
         (list_to_map (zip (dims plane)
                         [PyFloat 0.5%float; PyArray (vec [0; 1; 2]%float)])).
Proof.
  apply (positional_as_keywords NDT_eval_spec (fun _ _ _ _ _ _ => (0%Z, 0%float))
           0%float plane [PyFloat 0.5%float; PyArray (vec [0; 1; 2]%float)]
           None None).
  - apply (bool_decide_unpack _). vm_compute. exact I.
  - reflexivity.
Defined.

(** ** Bare numbers in a query *)

Lemma arg_lens_inversion (l : list (string * pyval)) lens :
  traverse (fun kv => arg_len kv.2) l = Ok lens ->
  lens = map (fun kv => len_or 1 kv.2) l
  /\ Forall (fun kv => arg_len kv.2 = Ok (len_or 1 kv.2)) l.
Proof.
  revert lens. induction l as [|[d v] l IH]; intros lens Ht; simpl in Ht.
  - injection Ht as <-. split; [reflexivity | constructor].
  - open_bind Ht as n Hn. open_bind Ht as ns Hns. injection Ht as <-.
    destruct (IH _ Hns) as [-> Hall]. cbn [snd] in Hn.
    assert (Hv : arg_len v = Ok (len_or 1 v)).
    { destruct v as [x|a]; [exact eq_refl|].
      simpl in *. unfold py_len in *. destruct (shape a); [discriminate|reflexivity]. }
    rewrite Hv in Hn. injection Hn as <-.
    split; [reflexivity|]. constructor; assumption.
Qed.

Lemma foldr_max_bound {A} (f : A -> nat) (l : list A) (b : nat) :
  (forall x, x ∈ l -> f x <= b) -> foldr Nat.max 0 (map f l) <= b.
Proof.
  induction l as [|a l IH]; intros H; simpl; [lia|].
  pose proof (H a ltac:(left)).
  pose proof (IH (fun x Hx => H x ltac:(right; exact Hx))). lia.
Qed.

Lemma foldr_max_mono {A} (f g : A -> nat) (l : list A) :
  (forall x, x ∈ l -> f x <= g x) ->
  foldr Nat.max 0 (map f l) <= foldr Nat.max 0 (map g l).
Proof.
  induction l as [|a l IH]; intros H; simpl; [lia|].
  pose proof (H a ltac:(left)).
  pose proof (IH (fun x Hx => H x ltac:(right; exact Hx))). lia.
Qed.

Lemma foldr_max_elem {A} (f : A -> nat) (l : list A) x :
  x ∈ l -> f x <= foldr Nat.max 0 (map f l).
Proof.
  induction l as [|a l IH]; intros Hx; [inversion Hx|].
  simpl. apply elem_of_cons in Hx. destruct Hx as [->|Hx]; [lia|].
  specialize (IH Hx). lia.
Qed.

Lemma len_or_expand n v : len_or 1 (expand n v) = len_or n v.
Proof. destruct v; reflexivity. Qed.

(** The largest length is unchanged when every bare number counts for
    the largest length instead of one. *)
Lemma max_len_expand (l : list (string * pyval)) :
  foldr Nat.max 0
    (map (fun kv => len_or (foldr Nat.max 0 (map (fun kv => len_or 1 kv.2) l)) kv.2) l)
  = foldr Nat.max 0 (map (fun kv => len_or 1 kv.2) l).
Proof.
  set (mx := foldr Nat.max 0 (map (fun kv => len_or 1 kv.2) l)).
  apply Nat.le_antisymm.
  - apply foldr_max_bound. intros [d v] Hin. cbn [snd].
    destruct v as [x|a]; [apply Nat.le_refl|].
    apply (foldr_max_elem (fun kv => len_or 1 kv.2) l (d, PyArray a) Hin).
  - apply foldr_max_mono. intros [d v] Hin. cbn [snd].
    destruct v as [x|a]; [|apply Nat.le_refl].
    apply (foldr_max_elem (fun kv => len_or 1 kv.2) l (d, PyFloat x) Hin).
Qed.

Lemma bind_args_fmap ds (kwargs : gmap string pyval) points (f : pyval -> pyval) :
  bind_args ds (f <$> kwargs) (map f points)
  = match bind_args ds kwargs points with
    | Ok args => Ok (map (fun kv => (kv.1, f kv.2)) args)
    | Raise e => Raise e
    end.
Proof.
  revert points. induction ds as [|d ds IH]; intros points; [reflexivity|].
  cbn [bind_args]. rewrite lookup_fmap.
  destruct (kwargs !! d) as [v|]; cbn [fmap option_fmap option_map].
  - rewrite IH. destruct (bind_args ds kwargs points); reflexivity.
  - destruct points as [|p ps]; [reflexivity|]. cbn [map].
    rewrite IH. destruct (bind_args ds kwargs ps); reflexivity.
Qed.

Lemma query_args_expand m points (kwargs : gmap string pyval) qa :
  query_args m points kwargs = Ok qa ->
  exists n,
    Forall (fun a => py_len a = Ok n \/ py_len a = Ok 1) qa
    /\ query_args m (map (expand n) points) (expand n <$> kwargs) = Ok qa.
Proof.
  intros Hq. unfold query_args in Hq.
  destruct (decide (supplied m points kwargs = ndim m)) as [Hs|]; [|discriminate].
  open_bind Hq as bargs Hb. open_bind Hq as lens Hl. open_bind Hq as mx Hmx.
  destruct (compatible lens mx) eqn:Hc; [|discriminate]. injection Hq as <-.
  destruct (arg_lens_inversion _ _ Hl) as [-> Hall].
  assert (Hne : bargs <> []).
  { intros ->. discriminate. }
  unfold py_max in Hmx.
  destruct (map (fun kv : string * pyval => len_or 1 kv.2) bargs)
    as [|h0 t0] eqn:Hm.
  { destruct bargs; [contradiction|discriminate]. }
  rewrite <- Hm in *. injection Hmx as <-.
  set (mx := foldr Nat.max 0 (map (fun kv : string * pyval => len_or 1 kv.2) bargs))
    in *.
  exists mx. split.
  - apply List.Forall_forall. intros a Ha. apply in_map_iff in Ha.
    destruct Ha as ([d v] & <- & Hin). cbn [snd].
    unfold compatible in Hc. rewrite forallb_forall in Hc.
    specialize (Hc (len_or 1 v) (in_map (fun kv => len_or 1 kv.2) _ _ Hin)).
    rewrite List.Forall_forall in Hall. specialize (Hall _ Hin). cbn [snd] in Hall.
    destruct v as [x|a]; [left; reflexivity|].
    cbn [as_array]. change (arg_len (PyArray a)) with (py_len a) in Hall.
    rewrite Hall.
    apply orb_true_iff in Hc. rewrite !Nat.eqb_eq in Hc.
    destruct Hc as [Heq|Heq]; rewrite Heq; [left|right]; reflexivity.
  - unfold query_args.
    assert (Hs' : supplied m (map (expand mx) points) (expand mx <$> kwargs)
                  = ndim m).
    { unfold supplied in *. rewrite dom_fmap_L, length_map. exact Hs. }
    destruct (decide _) as [_|Hn]; [|contradiction].
    rewrite bind_args_fmap, Hb. cbn [bind].
    rewrite (traverse_map _ (fun kv => len_or 1 kv.2)).
    2:{ intros [d v] Hin. apply list_elem_of_fmap in Hin.
        destruct Hin as ([d' v'] & Heq & Hin). injection Heq as -> ->.
        cbn [fst snd]. rewrite List.Forall_forall in Hall.
        specialize (Hall _ ltac:(apply list_elem_of_In; exact Hin)).
        cbn [snd] in Hall. destruct v' as [x|a]; [reflexivity|exact Hall]. }
    cbn [bind]. rewrite map_map. cbn [snd].
    assert (Hlens : map (fun x : string * pyval => len_or 1 (expand mx x.2)) bargs
                    = map (fun kv => len_or mx kv.2) bargs).
    { apply map_ext. intros [d v]. apply len_or_expand. }
    rewrite Hlens. unfold py_max.
    destruct (map (fun kv : string * pyval => len_or mx kv.2) bargs)
      as [|h1 t1] eqn:Hm'.
    { destruct bargs; [contradiction|discriminate]. }
    rewrite <- Hm'. cbn [bind]. unfold mx at 2. rewrite max_len_expand. fold mx.
    assert (Hc' : compatible (map (fun kv : string * pyval => len_or mx kv.2) bargs) mx
                  = true).
    { unfold compatible in *. apply forallb_forall. intros k Hk.
      apply in_map_iff in Hk. destruct Hk as ([d v] & <- & Hin). cbn [snd].
      destruct v as [x|a]; [simpl; rewrite Nat.eqb_refl; reflexivity|].
      rewrite forallb_forall in Hc.
      exact (Hc _ (in_map (fun kv => len_or 1 kv.2) _ _ Hin)). }
    rewrite Hc'. f_equal. rewrite map_map. apply map_ext.
    intros [d v]. destruct v; reflexivity.
Qed.

(** X4: in a query that passes the checks, a bare number [x] stands for
    the one-axis array of N copies of [1.0 * x], N being the common
    length: writing every bare number out as that array gives the same
    result from [interpolation] and [derivate].  (Arrays are left as
    they are, of length N or 1.) *)
Theorem scalars_as_arrays K KD uninit m points interp extrap
    (kwargs : gmap string pyval) qa :
  query_args m points kwargs = Ok qa ->
  exists n,
    Forall (fun a => py_len a = Ok n \/ py_len a = Ok 1) qa
    /\ (forall x, as_array n (PyFloat x) = vec (replicate n (1 * x)%float))
    /\ interpolation K uninit m (map (expand n) points) interp extrap
         (expand n <$> kwargs)
       = interpolation K uninit m points interp extrap kwargs
    /\ derivate KD uninit m (map (expand n) points) interp extrap
         (expand n <$> kwargs)
       = derivate KD uninit m points interp extrap kwargs.
Proof.
  intros Hq. destruct (query_args_expand m points kwargs qa Hq) as (n & Hlen & Hq').
  exists n. split; [exact Hlen|]. split.
  - intros x. unfold vec. rewrite length_replicate. reflexivity.
  - unfold interpolation, derivate. rewrite Hq, Hq'. split; reflexivity.
Qed.

Lemma scalars_as_arrays_witness :
  exists n,
    Forall (fun a => py_len a = Ok n \/ py_len a = Ok 1)
      [vec [0.5; 0.5; 0.5]%float; vec [0; 1; 2]%float]
    /\ (forall x, as_array n (PyFloat x) = vec (replicate n (1 * x)%float))
    /\ interpolation NDT_eval_spec 0%float plane
         (map (expand n) [PyFloat 0.5%float; PyArray (vec [0; 1; 2]%float)])
         None None (expand n <$> ∅)
       = interpolation NDT_eval_spec 0%float plane
           [PyFloat 0.5%float; PyArray (vec [0; 1; 2]%float)] None None ∅
    /\ derivate (fun _ _ _ _ _ _ => (0%Z, 0%float)) 0%float plane
         (map (expand n) [PyFloat 0.5%float; PyArray (vec [0; 1; 2]%float)])
         None None (expand n <$> ∅)
       = derivate (fun _ _ _ _ _ _ => (0%Z, 0%float)) 0%float plane
           [PyFloat 0.5%float; PyArray (vec [0; 1; 2]%float)] None None ∅.
Proof.
  apply (scalars_as_arrays NDT_eval_spec (fun _ _ _ _ _ _ => (0%Z, 0%float))
           0%float plane [PyFloat 0.5%float; PyArray (vec [0; 1; 2]%float)]
           None None ∅).
  vm_compute. reflexivity.
Defined.

(** ** The shape of the result *)

Lemma derivate_result KD uninit m points interp extrap kwargs r :
  derivate KD uninit m points interp extrap kwargs = Ok r ->
  exists a0 rest vals,
    query_args m points kwargs = Ok (a0 :: rest)
    /\ length vals = size_of a0
    /\ unwrap (NDArray (shape a0) vals) = Ok r.
Proof.
  intros Hi. unfold derivate in Hi.
  open_bind Hi as args Hargs. open_bind Hi as a0 Ha0.
  open_bind Hi as tbl Htbl. open_bind Hi as im Him. open_bind Hi as em Hem.
  open_bind Hi as res Hres.
  destruct args as [|a args]; [discriminate|]. injection Ha0 as ->.
  unfold evaluate_derivative in Hres. open_bind Hres as r0 Hr0.
  injection Hres as <-. cbn [np_empty shape flat] in *.
  unfold finish in Hi. cbn [store fst] in Hi.
  destruct (decide (r0.1 = 0%Z)) as [Hst|]; [|discriminate].
  exists a0, args, (store r0 (replicate (prod_list (shape a0)) uninit)).2.
  split; [exact Hargs|]. split; [|exact Hi].
  rewrite (store_length r0 0); rewrite length_replicate; [reflexivity|].
  rewrite (eval_from_length _ _ _ _ Hr0 Hst).
  unfold size_of, np_empty. cbn [shape].
  pose proof (c_int_le (Z.of_nat (prod_list (shape a0)))). lia.
Qed.

Lemma unwrap_one_axis n vals r :
  unwrap (NDArray [n] vals) = Ok r ->
  length vals = n ->
  (n = 1 /\ exists v, r = PyFloat v)
  \/ (n <> 1 /\ exists vs, r = PyArray (NDArray [n] vs) /\ length vs = n).
Proof.
  intros Hu Hl. apply unwrap_cases in Hu.
  destruct Hu as [[Hh ->] | [(v & Hs & _ & ->) | (s & rs & Hs & _)]].
  - right. split; [intros ->; apply Hh; reflexivity|].
    exists vals. split; [reflexivity|exact Hl].
  - left. injection Hs as ->. split; [reflexivity | eauto].
  - discriminate.
Qed.

(** X5: when the first coordinate array of a query that passes the
    checks has one axis, of length n, a successful [interpolation] or
    [derivate] returns a single number if n is 1 and otherwise an
    array of one axis and n entries. *)
Theorem result_shape K KD uninit m points interp extrap kwargs a0 rest n :
  query_args m points kwargs = Ok (a0 :: rest) ->
  shape a0 = [n] ->
  (forall r, interpolation K uninit m points interp extrap kwargs = Ok r ->
     (n = 1 /\ exists v, r = PyFloat v)
     \/ (n <> 1 /\ exists vs, r = PyArray (NDArray [n] vs) /\ length vs = n))
  /\ (forall r, derivate KD uninit m points interp extrap kwargs = Ok r ->
        (n = 1 /\ exists v, r = PyFloat v)
        \/ (n <> 1 /\ exists vs, r = PyArray (NDArray [n] vs) /\ length vs = n)).
Proof.
  intros Hq Hsh. split; intros r Hr.
  - destruct (interpolation_result _ _ _ _ _ _ _ _ Hr)
      as (a & rs & vals & Hq' & Hl & Hu).
    rewrite Hq in Hq'. injection Hq' as <- <-.
    unfold size_of in Hl. rewrite Hsh in Hl, Hu.
    apply (unwrap_one_axis n vals r Hu). rewrite Hl. cbn. lia.
  - destruct (derivate_result _ _ _ _ _ _ _ _ Hr)
      as (a & rs & vals & Hq' & Hl & Hu).
    rewrite Hq in Hq'. injection Hq' as <- <-.
    unfold size_of in Hl. rewrite Hsh in Hl, Hu.
    apply (unwrap_one_axis n vals r Hu). rewrite Hl. cbn. lia.
Qed.

Lemma result_shape_witness :
  (forall r,
     interpolation NDT_eval_spec 0%float plane
       [PyFloat 0.5%float; PyArray (vec [0; 1; 2]%float)] None None ∅ = Ok r ->
     (3 = 1 /\ exists v, r = PyFloat v)
     \/ (3 <> 1 /\ exists vs, r = PyArray (NDArray [3] vs) /\ length vs = 3))
  /\ (forall r,
        derivate (fun _ _ _ _ _ _ => (0%Z, 0%float)) 0%float plane
          [PyFloat 0.5%float; PyArray (vec [0; 1; 2]%float)] None None ∅ = Ok r ->
        (3 = 1 /\ exists v, r = PyFloat v)
        \/ (3 <> 1 /\ exists vs, r = PyArray (NDArray [3] vs) /\ length vs = 3)).
Proof.
  apply (result_shape NDT_eval_spec (fun _ _ _ _ _ _ => (0%Z, 0%float)) 0%float
           plane [PyFloat 0.5%float; PyArray (vec [0; 1; 2]%float)] None None ∅
           (vec [0.5; 0.5; 0.5]%float) [vec [0; 1; 2]%float] 3).
  - vm_compute. reflexivity.
  - reflexivity.
Defined.

(** ** Method names *)

Lemma INTERP_METH_getitem_known s :
  s ∈ INTERP_NAMES -> exists i, INTERP_METH_getitem s = Ok i.
Proof.
  unfold INTERP_NAMES, INTERP_METH_getitem. intros Hs.
  repeat (apply elem_of_cons in Hs; destruct Hs as [->|Hs]; [eexists; reflexivity|]).
  inversion Hs.
Qed.

Lemma INTERP_METH_getitem_unknown s :
  s ∉ INTERP_NAMES -> INTERP_METH_getitem s = Raise (KeyError s).
Proof.
  unfold INTERP_NAMES, INTERP_METH_getitem. intros Hs.
  repeat (destruct (decide _) as [->|_];
          [exfalso; apply Hs; repeat (first [left | right]) |]).
  reflexivity.
Qed.

Lemma EXTRAP_METH_getitem_known s :
  s ∈ EXTRAP_NAMES -> exists e, EXTRAP_METH_getitem s = Ok e.
Proof.
  unfold EXTRAP_NAMES, EXTRAP_METH_getitem. intros Hs.
  repeat (apply elem_of_cons in Hs; destruct Hs as [->|Hs]; [eexists; reflexivity|]).
  inversion Hs.
Qed.

Lemma EXTRAP_METH_getitem_unknown s :
  s ∉ EXTRAP_NAMES -> EXTRAP_METH_getitem s = Raise (KeyError s).
Proof.
  unfold EXTRAP_NAMES, EXTRAP_METH_getitem. intros Hs.
  repeat (destruct (decide _) as [->|_];
          [exfalso; apply Hs; repeat (first [left | right]) |]).
  reflexivity.
Qed.

Lemma query_args_nonempty m points kwargs qa :
  query_args m points kwargs = Ok qa -> exists a0 rest, qa = a0 :: rest.
Proof.
  intros Hq. unfold query_args in Hq.
  destruct (decide _); [|discriminate].
  open_bind Hq as bargs Hb. open_bind Hq as lens Hl. open_bind Hq as mx Hmx.
  destruct (compatible lens mx); [|discriminate]. injection Hq as <-.
  destruct bargs as [|b bargs]; [|simpl; eauto].
  simpl in Hl. injection Hl as <-. discriminate.
Qed.

(** X6: a query that passes the checks with a method name that is not a
    member of its enumeration raises [KeyError] with that name, whatever
    the native routine is, in [interpolation] and in [derivate]; the
    interpolation method is looked up first. *)
Theorem unknown_method K KD uninit m points interp extrap kwargs qa tbl :
  query_args m points kwargs = Ok qa ->
  NDTable_t_init m = Ok tbl ->
  (default "linear" interp ∉ INTERP_NAMES ->
     interpolation K uninit m points interp extrap kwargs
     = Raise (KeyError (default "linear" interp))
     /\ derivate KD uninit m points interp extrap kwargs
        = Raise (KeyError (default "linear" interp)))
  /\ (default "linear" interp ∈ INTERP_NAMES ->
      default "hold" extrap ∉ EXTRAP_NAMES ->
      interpolation K uninit m points interp extrap kwargs
      = Raise (KeyError (default "hold" extrap))
      /\ derivate KD uninit m points interp extrap kwargs
         = Raise (KeyError (default "hold" extrap))).
Proof.
  intros Hq Htbl.
  destruct (query_args_nonempty _ _ _ _ Hq) as (a0 & rest & ->).
  unfold interpolation, derivate. rewrite Hq. cbn [bind first_arg].
  rewrite Htbl. cbn [bind]. split.
  - intros Hi. rewrite (INTERP_METH_getitem_unknown _ Hi). split; reflexivity.
  - intros Hi He. destruct (INTERP_METH_getitem_known _ Hi) as [im ->].
    cbn [bind]. rewrite (EXTRAP_METH_getitem_unknown _ He). split; reflexivity.
Qed.

Lemma unknown_method_witness :
  interpolation NDT_eval_spec 0%float squares [PyFloat 1.5%float]
    (Some "cubic") (Some "nope") ∅
  = Raise (KeyError "cubic")
  /\ derivate (fun _ _ _ _ _ _ => (0%Z, 0%float)) 0%float squares
       [PyFloat 1.5%float] (Some "cubic") (Some "nope") ∅
     = Raise (KeyError "cubic").
Proof.
  destruct (NDTable_t_init squares) as [tbl|e] eqn:Ht; [|discriminate].
  assert (Hq : query_args squares [PyFloat 1.5%float] ∅ = Ok [vec [1.5]%float])
    by (vm_compute; reflexivity).
  destruct (unknown_method NDT_eval_spec (fun _ _ _ _ _ _ => (0%Z, 0%float))
                  0%float squares [PyFloat 1.5%float] (Some "cubic") (Some "nope")
                  ∅ [vec [1.5]%float] tbl Hq Ht) as [H1 _].
  apply H1.
  apply (bool_decide_unpack _). vm_compute. exact I.
Defined.

(** ** The exceptions of a query *)

Lemma bind_args_raises ds kwargs points e :
  bind_args ds kwargs points = Raise e -> e = IndexError.
Proof.
  revert points. induction ds as [|d ds IH]; intros points H; [discriminate|].
  simpl in H. destruct (kwargs !! d).
  - apply bind_Raise in H. destruct H as [H | (a & _ & H)]; [eauto | discriminate].
  - destruct points as [|p ps]; [congruence|].
    apply bind_Raise in H. destruct H as [H | (a & _ & H)]; [eauto | discriminate].
Qed.

Lemma arg_lens_raises (args : list (string * pyval)) e :
  traverse (fun kv => arg_len kv.2) args = Raise e -> e = TypeError.
Proof.
  induction args as [|[d v] args IH]; intros H; [discriminate|].
  simpl in H. apply bind_Raise in H. destruct H as [H | (n & _ & H)].
  - destruct v as [x|a]; [discriminate|]. simpl in H. unfold py_len in H.
    destruct (shape a); congruence.
  - apply bind_Raise in H. destruct H as [H | (ns & _ & H)]; [eauto | discriminate].
Qed.

Lemma query_args_raises m points kwargs e :
  query_args m points kwargs = Raise e ->
  e = AssertionError arity_msg \/ e = IndexError \/ e = TypeError
  \/ e = ValueError \/ e = AssertionError broadcast_msg.
Proof.
  unfold query_args. intros H.
  destruct (decide _); [|left; congruence].
  apply bind_Raise in H. destruct H as [H | (bargs & _ & H)].
  { right. left. exact (bind_args_raises _ _ _ _ H). }
  apply bind_Raise in H. destruct H as [H | (lens & _ & H)].
  { right. right. left. exact (arg_lens_raises _ _ H). }
  apply bind_Raise in H. destruct H as [H | (mx & _ & H)].
  { right. right. right. left. unfold py_max in H. destruct lens; congruence. }
  destruct (compatible lens mx); [discriminate|].
  right. right. right. right. congruence.
Qed.

Lemma eval_from_raises f k n e : eval_from f k n = Raise e -> e = Undefined.
Proof.
  revert k. induction n as [|n IH]; intros k H; [discriminate|].
  simpl in H. destruct (f k) as [[st v]|]; [|congruence].
  destruct (decide (st = 0%Z)); [|discriminate].
  apply bind_Raise in H. destruct H as [H | (a & _ & H)]; [eauto | discriminate].
Qed.

Lemma finish_raises sh r e :
  finish sh r = Raise e ->
  e = AssertionError native_msg \/ e = TypeError \/ e = IndexError.
Proof.
  unfold finish. intros H.
  destruct (decide (r.1 = 0%Z)); [|left; congruence].
  right. unfold unwrap, py_len in H. cbn [shape] in H.
  destruct sh as [|n sh]; [left; simpl in H; congruence|].
  cbn [bind] in H. destruct (decide (n = 1)) as [->|]; [|discriminate].
  right. unfold getitem0 in H. cbn [shape flat] in H.
  destruct sh as [|s sh].
  - destruct r.2; congruence.
  - discriminate.
Qed.

Lemma NDTable_t_init_raises m e : NDTable_t_init m = Raise e -> e = IndexError.
Proof.
  unfold NDTable_t_init, ARRAY_MAX_NDIMS. intros H.
  repeat (destruct (decide _); [cbn [bind] in H | simpl in H; congruence]).
  discriminate.
Qed.

Lemma INTERP_METH_getitem_raises s e :
  INTERP_METH_getitem s = Raise e -> e = KeyError s /\ s ∉ INTERP_NAMES.
Proof.
  intros H. destruct (decide (s ∈ INTERP_NAMES)) as [Hin|Hout].
  - destruct (INTERP_METH_getitem_known s Hin) as [i Hi]. congruence.
  - rewrite (INTERP_METH_getitem_unknown s Hout) in H. split; congruence.
Qed.

Lemma EXTRAP_METH_getitem_raises s e :
  EXTRAP_METH_getitem s = Raise e -> e = KeyError s /\ s ∉ EXTRAP_NAMES.
Proof.
  intros H. destruct (decide (s ∈ EXTRAP_NAMES)) as [Hin|Hout].
  - destruct (EXTRAP_METH_getitem_known s Hin) as [i Hi]. congruence.
  - rewrite (EXTRAP_METH_getitem_unknown s Hout) in H. split; congruence.
Qed.

Lemma query_tail_raises (ev : res (Z * list float)) m interp extrap
    (args : list ndarray) e
    (body : NDTable_t -> INTERP_METH -> EXTRAP_METH -> ndarray
            -> res (Z * list float)) :
  (forall tbl im em a0 e', body tbl im em a0 = Raise e' -> e' = Undefined) ->
  (do a0 <- first_arg args;
   do tbl <- NDTable_t_init m;
   do im <- INTERP_METH_getitem (default "linear" interp);
   do em <- EXTRAP_METH_getitem (default "hold" extrap);
   do r <- body tbl im em a0;
   finish (shape (np_empty 0%float (shape a0))) r) = Raise e ->
  query_exception interp extrap e.
Proof.
  intros Hbody H. unfold query_exception.
  apply bind_Raise in H. destruct H as [H | (a0 & _ & H)].
  { destruct args as [|a args]; cbn [first_arg] in H; [|discriminate].
    right. left. congruence. }
  apply bind_Raise in H. destruct H as [H | (tbl & _ & H)].
  { right. left. exact (NDTable_t_init_raises _ _ H). }
  apply bind_Raise in H. destruct H as [H | (im & _ & H)].
  { do 5 right. left. exact (INTERP_METH_getitem_raises _ _ H). }
  apply bind_Raise in H. destruct H as [H | (em & _ & H)].
  { do 6 right. left. exact (EXTRAP_METH_getitem_raises _ _ H). }
  apply bind_Raise in H. destruct H as [H | (r & _ & H)].
  { do 7 right. left. exact (Hbody _ _ _ _ _ H). }
  apply finish_raises in H. destruct H as [H | [H | H]].
  - do 8 right. exact H.
  - right. right. left. exact H.
  - right. left. exact H.
Qed.

(** X7: whatever the mesh, the arguments and the native routines, a
    query by [interpolation] or by [derivate] that raises ends with one
    of: the arity assertion, the length assertion, the native-status
    assertion, [IndexError], [TypeError], [ValueError], a native read
    outside its buffers, or [KeyError] carrying a method name, and the
    latter only for a name that is not a member of its enumeration. *)
Theorem query_exceptions K KD uninit m points interp extrap kwargs e :
  interpolation K uninit m points interp extrap kwargs = Raise e
  \/ derivate KD uninit m points interp extrap kwargs = Raise e ->
  query_exception interp extrap e.
Proof.
  intros [H | H].
  - unfold interpolation in H. cbv zeta in H.
    apply bind_Raise in H. destruct H as [H | (args & _ & H)].
    { apply query_args_raises in H. unfold query_exception. tauto. }
    refine (query_tail_raises (Raise e) m interp extrap args e
              (fun tbl im em a0 =>
                 evaluate_interpolation K tbl args (c_int (Z.of_nat (ndim m)))
                   im em (c_int (Z.of_nat (size_of (np_empty uninit (shape a0)))))
                   (flat (np_empty uninit (shape a0)))) _ _).
    + intros tbl im em a0 e' He. unfold evaluate_interpolation in He.
      apply bind_Raise in He. destruct He as [He | (r & _ & He)]; [|discriminate].
      exact (eval_from_raises _ _ _ _ He).
    + exact H.
  - unfold derivate in H. cbv zeta in H.
    apply bind_Raise in H. destruct H as [H | (args & _ & H)].
    { apply query_args_raises in H. unfold query_exception. tauto. }
    refine (query_tail_raises (Raise e) m interp extrap args e
              (fun tbl im em a0 =>
                 evaluate_derivative KD tbl args (map ones_like args)
                   (c_int (Z.of_nat (ndim m)))
                   im em (c_int (Z.of_nat (size_of (np_empty uninit (shape a0)))))
                   (flat (np_empty uninit (shape a0)))) _ _).
    + intros tbl im em a0 e' He. unfold evaluate_derivative in He.
      apply bind_Raise in He. destruct He as [He | (r & _ & He)]; [|discriminate].
      exact (eval_from_raises _ _ _ _ He).
    + exact H.
Qed.

Lemma query_exceptions_witness :
  interpolation NDT_eval_spec 0%float squares [] None (Some "nope") ∅
  = Raise (AssertionError arity_msg)
  /\ query_exception None (Some "nope") (AssertionError arity_msg).
Proof.
  assert (H : interpolation NDT_eval_spec 0%float squares [] None (Some "nope") ∅
              = Raise (AssertionError arity_msg)) by (vm_compute; reflexivity).
  split; [exact H|].
  apply (query_exceptions NDT_eval_spec (fun _ _ _ _ _ _ => (0%Z, 0%float))
           0%float squares [] None (Some "nope") ∅).
  left. exact H.
Defined.

(** ** Arguments of [resample] *)

Lemma resample_args_ext m ds kw1 kw2 points :
  (forall d, d ∈ ds -> kw1 !! d = kw2 !! d) ->
  resample_args m ds kw1 points = resample_args m ds kw2 points.
Proof.
  revert points. induction ds as [|d ds IH]; intros points H; [reflexivity|].
  cbn [resample_args]. rewrite <- (H d) by left.
  assert (H' : forall d', d' ∈ ds -> kw1 !! d' = kw2 !! d')
    by (intros d' Hd'; apply H; right; exact Hd').
  destruct (kw1 !! d).
  - rewrite (IH points H'). reflexivity.
  - destruct points as [|p ps].
    + rewrite (IH [] H'). reflexivity.
    + rewrite (IH ps H'). reflexivity.
Qed.

Lemma resample_args_take m ds kwargs points k :
  length (filter (fun d => d ∉ dom kwargs) ds) <= k ->
  resample_args m ds kwargs (take k points) = resample_args m ds kwargs points.
Proof.
  revert points k. induction ds as [|d ds IH]; intros points k Hk; [reflexivity|].
  cbn [resample_args]. rewrite filter_cons in Hk.
  destruct (kwargs !! d) as [v|] eqn:Hd.
  - destruct (decide (d ∉ dom kwargs)) as [Hn|_].
    { exfalso. apply Hn. apply elem_of_dom. eauto. }
    rewrite (IH points k Hk). reflexivity.
  - destruct (decide (d ∉ dom kwargs)) as [_|Hn].
    2:{ exfalso. apply Hn. rewrite not_elem_of_dom. exact Hd. }
    simpl in Hk. destruct k as [|k]; [lia|].
    destruct points as [|p ps]; [reflexivity|].
    cbn [take]. rewrite (IH ps k) by lia. reflexivity.
Qed.

(** X8: [resample] has no arity check.  Keywords that name no dimension
    and positional arguments beyond the dimensions that no keyword
    names are never read: the result, or the exception, is that of the
    call without them. *)
Theorem resample_surplus_ignored K uninit m points interp extrap kwargs :
  resample K uninit m points interp extrap kwargs
  = resample K uninit m
      (take (length (filter (fun d => d ∉ dom kwargs) (dims m))) points)
      interp extrap (filter (fun kv => kv.1 ∈ dims m) kwargs).
Proof.
  unfold resample.
  rewrite <- (resample_args_ext m (dims m) kwargs
                (filter (fun kv => kv.1 ∈ dims m) kwargs)).
  - rewrite (resample_args_take m (dims m) kwargs points _ (Nat.le_refl _)).
    reflexivity.
  - intros d Hd. symmetry. destruct (kwargs !! d) as [v|] eqn:Hk.
    + apply map_lookup_filter_Some. split; [exact Hk | exact Hd].
    + apply map_lookup_filter_None. left. exact Hk.
Qed.

Lemma resample_args_coords m1 m2 ds kwargs points :
  coords m1 = coords m2 ->
  resample_args m1 ds kwargs points = resample_args m2 ds kwargs points.
Proof.
  intros Hc. revert points. induction ds as [|d ds IH]; intros points; [reflexivity|].
  cbn [resample_args]. destruct (kwargs !! d).
  - rewrite IH. reflexivity.
  - destruct points as [|p ps]; rewrite IH, ?Hc; reflexivity.
Qed.

(** X9: [resample] goes through [interpolation], not through the call
    of the mesh, so the options and the captions of the mesh play no
    part in it, and they are not handed on: whatever they are, the
    result or the exception is the same, and a mesh that comes out has
    the default options, no label and no unit. *)
Theorem resample_forgets_options K uninit m o l u points interp extrap kwargs :
  resample K uninit (with_captions m o l u) points interp extrap kwargs
  = resample K uninit m points interp extrap kwargs
  /\ forall m', resample K uninit m points interp extrap kwargs = Ok m' ->
       options m' = default_options /\ label m' = None /\ unit m' = None.
Proof.
  split.
  { unfold resample.
    rewrite (resample_args_coords (with_captions m o l u) m
               (dims (with_captions m o l u)) kwargs points eq_refl).
    reflexivity. }
  intros m' H. unfold resample in H.
  open_bind H as args Hargs. open_bind H as nv Hnv.
  unfold Mesh_init in H. destruct (forallb _ args); [|discriminate].
  open_bind H as cs Hcs. open_bind H as d Hd. injection H as <-.
  repeat split.
Qed.

(** X10: for a well-formed mesh with at least one dimension, whose
    dimension names are among x, y, z, v, w and stand in that order,
    whose first axis does not have exactly one breakpoint, with fewer
    than 2^31 nodes, a table that can be built, and a native routine
    that, for linear interpolation and hold extrapolation, returns
    status 0 and the stored value at every node of the grid:
    [resample] without arguments gives the coordinates and the data
    back, with the default options and no captions, and resampling
    that mesh again changes nothing. *)
Theorem resample_own_grid K uninit m tbl :
  mesh_wf m ->
  filter (fun ax => ax ∈ dims m) AXES = dims m ->
  dims m <> [] ->
  NDTable_t_init m = Ok tbl ->
  head (shape (data m)) <> Some 1 ->
  (Z.of_nat (size_of (data m)) < 2 ^ 31)%Z ->
  map (fun p => K tbl (Z.of_nat (ndim m)) p linear hold_x)
    (cartesian (map snd (coords m)))
  = map (fun v => (0%Z, v)) (flat (data m)) ->
  resample K uninit m [] None None ∅
  = Ok (with_captions m default_options None None)
  /\ resample K uninit (with_captions m default_options None None) [] None None ∅
     = Ok (with_captions m default_options None None).
Proof.
  intros Hwf Hax Hne Htbl Hfirst Hbound Hnodes.
  split.
  - exact (resample_own_breakpoints K uninit m tbl
             Hwf Hax Hne Htbl Hfirst Hbound Hnodes).
  - exact (resample_own_breakpoints K uninit
             (with_captions m default_options None None) tbl
             Hwf Hax Hne Htbl Hfirst Hbound Hnodes).
Qed.

Lemma resample_own_grid_witness :
  resample NDT_eval_spec 0%float plane [] None None ∅
  = Ok (with_captions plane default_options None None)
  /\ resample NDT_eval_spec 0%float
       (with_captions plane default_options None None) [] None None ∅
     = Ok (with_captions plane default_options None None).
Proof.
  apply (resample_own_grid NDT_eval_spec 0%float plane plane_table).
  - split; [|split; reflexivity]. apply (bool_decide_unpack _). vm_compute. exact I.
  - vm_compute. reflexivity.
  - discriminate.
  - exact plane_table_init.
  - discriminate.
  - vm_compute. reflexivity.
  - vm_compute. reflexivity.
Defined.

(** ** The bound on the number of dimensions *)

Lemma ARRAY_MAX_NDIMS_cases (xs : list Z) :
  (length xs <= MAX_NDIMS
   /\ exists ys, ARRAY_MAX_NDIMS xs = Ok ys
        /\ length ys = MAX_NDIMS
        /\ take (length xs) ys = map c_int xs
        /\ forall i, length xs <= i < MAX_NDIMS -> ys !! i = Some 0%Z)
  \/ (MAX_NDIMS < length xs /\ ARRAY_MAX_NDIMS xs = Raise IndexError).
Proof.
  unfold ARRAY_MAX_NDIMS.
  destruct (decide (length xs <= MAX_NDIMS)) as [Hle|Hgt]; [left | right].
  - split; [exact Hle|]. eexists. split; [reflexivity|].
    split; [|split].
    + rewrite length_app, length_map, length_replicate. lia.
    + rewrite take_app_length'; [reflexivity | symmetry; apply length_map].
    + intros i [Hlo Hhi].
      rewrite lookup_app_r by (rewrite length_map; exact Hlo).
      rewrite length_map. apply lookup_replicate_2. lia.
  - split; [lia | reflexivity].
Qed.

Lemma length_c_strides sh : length (c_strides sh) = length sh.
Proof. induction sh as [|s sh IH]; simpl; congruence. Qed.

(** X11: the table for the native library exists exactly for meshes of
    at most [MAX_NDIMS] = 32 data axes and dimension names; a larger
    one raises [IndexError].  In a table, the shape and the strides
    always have 32 entries: the shape starts with the axis lengths of
    the data, and from the number of axes on every entry of both is
    zero. *)
Theorem table_bound m :
  (ndim m <= MAX_NDIMS /\ length (dims m) <= MAX_NDIMS
   /\ exists tbl, NDTable_t_init m = Ok tbl
        /\ length (t_shape tbl) = MAX_NDIMS
        /\ length (t_strides tbl) = MAX_NDIMS
        /\ take (ndim m) (t_shape tbl)
           = map (fun n => c_int (Z.of_nat n)) (shape (data m))
        /\ (forall i, ndim m <= i < MAX_NDIMS ->
              t_shape tbl !! i = Some 0%Z /\ t_strides tbl !! i = Some 0%Z))
  \/ ((MAX_NDIMS < ndim m \/ MAX_NDIMS < length (dims m))
      /\ NDTable_t_init m = Raise IndexError).
Proof.
  unfold NDTable_t_init, ndim.
  destruct (ARRAY_MAX_NDIMS_cases (map Z.of_nat (shape (data m))))
    as [(Hle & sh & -> & Hlsh & Htsh & Hzsh) | (Hgt & ->)].
  2:{ right. rewrite length_map in Hgt. split; [left; exact Hgt | reflexivity]. }
  rewrite length_map in Hle, Htsh, Hzsh.
  destruct (ARRAY_MAX_NDIMS_cases (c_strides (shape (data m))))
    as [(_ & st & -> & Hlst & _ & Hzst) | (Hgt & _)].
  2:{ rewrite length_c_strides in Hgt. lia. }
  rewrite length_c_strides in Hzst.
  cbn [bind].
  destruct (decide (length (dims m) <= MAX_NDIMS)) as [Hd|Hd].
  - left. split; [exact Hle|]. split; [exact Hd|].
    eexists. split; [reflexivity|]. cbn [t_shape t_strides].
    split; [exact Hlsh|]. split; [exact Hlst|].
    split; [rewrite Htsh, map_map; reflexivity|].
    intros i Hi. split; [apply Hzsh | apply Hzst]; exact Hi.
  - right. split; [right; lia | reflexivity].
Qed.

(** X12: a query on a mesh of more than 32 dimensions whose arguments
    pass the checks raises [IndexError], in [interpolation] and in
    [derivate]: the method names are not looked up and the native
    routine is not reached. *)
Theorem too_many_dimensions K KD uninit m points interp extrap kwargs qa :
  query_args m points kwargs = Ok qa ->
  MAX_NDIMS < ndim m \/ MAX_NDIMS < length (dims m) ->
  interpolation K uninit m points interp extrap kwargs = Raise IndexError
  /\ derivate KD uninit m points interp extrap kwargs = Raise IndexError.
Proof.
  intros Hq Hbig.
  assert (Ht : NDTable_t_init m = Raise IndexError).
  { unfold NDTable_t_init, ARRAY_MAX_NDIMS.
    rewrite length_map, length_c_strides. fold (ndim m).
    destruct (decide (ndim m <= MAX_NDIMS)); [|reflexivity]. cbn [bind].
    destruct (decide (length (dims m) <= MAX_NDIMS)); [lia | reflexivity]. }
  destruct (query_args_nonempty m points kwargs qa Hq) as (a0 & rest & ->).
  unfold interpolation, derivate. rewrite Hq. cbn [bind first_arg].
  rewrite Ht. split; reflexivity.
Qed.

Lemma too_many_dimensions_witness :
  interpolation NDT_eval_spec 0%float wide (replicate 33 (PyFloat 0%float))
    None None ∅ = Raise IndexError
  /\ derivate (fun _ _ _ _ _ _ => (0%Z, 0%float)) 0%float wide
       (replicate 33 (PyFloat 0%float)) None None ∅ = Raise IndexError.
Proof.
  destruct (query_args wide (replicate 33 (PyFloat 0%float)) ∅) as [qa|e] eqn:Hq;
    [|vm_compute in Hq; discriminate].
  apply (too_many_dimensions NDT_eval_spec (fun _ _ _ _ _ _ => (0%Z, 0%float))
           0%float wide (replicate 33 (PyFloat 0%float)) None None ∅ qa Hq).
  left. vm_compute. lia.
Defined.

(** ** The constructor *)

Lemma getitem_cases {A} k (items : list (string * A)) :
  (exists v, getitem k items = Ok v /\ (k, v) ∈ items)
  \/ (getitem k items = Raise (KeyError k) /\ k ∉ map fst items).
Proof.
  induction items as [|[k' v'] items IH]; simpl.
  - right. split; [reflexivity|]. intros H. inversion H.
  - destruct (decide (k = k')) as [->|Hne].
    + left. exists v'. split; [reflexivity | left].
    + destruct IH as [(v & Hv & Hin) | (Hr & Hout)].
      * left. exists v. split; [exact Hv | right; exact Hin].
      * right. split; [exact Hr|]. intros H. apply elem_of_cons in H.
        destruct H as [H|H]; [contradiction | exact (Hout H)].
Qed.

Lemma getitem_perm {A} k (l1 l2 : list (string * A)) :
  NoDup (map fst l1) -> l1 ≡ₚ l2 -> getitem k l1 = getitem k l2.
Proof.
  intros Hnd Hp.
  assert (Hnd2 : NoDup (map fst l2)).
  { change (NoDup (fst <$> l2)). rewrite <- Hp. exact Hnd. }
  destruct (getitem_cases k l1) as [(v & -> & Hin) | (-> & Hout)].
  - symmetry. apply getitem_NoDup; [exact Hnd2|]. rewrite <- Hp. exact Hin.
  - destruct (getitem_cases k l2) as [(v & _ & Hin) | (-> & _)]; [|reflexivity].
    exfalso. apply Hout. apply list_elem_of_fmap. exists (k, v).
    split; [reflexivity|]. rewrite Hp. exact Hin.
Qed.

Lemma foldl_ext_in {A B} (f g : A -> B -> A) (l : list B) (a : A) :
  (forall a b, b ∈ l -> f a b = g a b) -> foldl f a l = foldl g a l.
Proof.
  revert a. induction l as [|b l IH]; intros a H; [reflexivity|].
  simpl. rewrite (H a b) by left. apply IH. intros a' b' Hb'. apply H. right. exact Hb'.
Qed.

Lemma filter_ext_bool {A} (p q : A -> bool) (l : list A) :
  (forall a, p a = q a) ->
  filter (fun a => p a) l = filter (fun a => q a) l.
Proof.
  intros H. apply list_filter_iff. intros a. rewrite (H a). reflexivity.
Qed.

Lemma init_coords_perm axes kw rest' :
  NoDup (map fst (ik_rest kw)) -> ik_rest kw ≡ₚ rest' ->
  init_coords axes kw = init_coords axes (with_rest kw rest').
Proof.
  intros Hnd Hp. unfold init_coords. cbn [with_rest ik_coords ik_rest].
  assert (Hf : filter (fun ax => bool_decide (ax ∈ map fst (ik_rest kw))) AXES
               = filter (fun ax => bool_decide (ax ∈ map fst rest')) AXES).
  { apply (filter_ext_bool (fun ax => bool_decide (ax ∈ map fst (ik_rest kw)))
             (fun ax => bool_decide (ax ∈ map fst rest'))).
    intros ax. apply bool_decide_ext. rewrite Hp. reflexivity. }
  rewrite <- Hf. apply foldl_ext_in. intros cs ax _.
  rewrite (getitem_perm ax _ _ Hnd Hp). reflexivity.
Qed.

Lemma redundant_perm kw rest' :
  ik_rest kw ≡ₚ rest' -> redundant kw = redundant (with_rest kw rest').
Proof.
  intros Hp. unfold redundant. cbn [with_rest ik_coords].
  destruct (ik_coords kw) as [cs|]; [|reflexivity].
  apply eq_true_iff_eq. rewrite !existsb_exists.
  assert (Hk : forall k, In k (init_keys kw) <-> In k (init_keys (with_rest kw rest'))).
  { intros k. unfold init_keys. cbn [with_rest ik_coords ik_label ik_unit ik_data ik_rest].
    rewrite !in_app_iff.
    assert (In k (map fst (ik_rest kw)) <-> In k (map fst rest')) as ->; [|reflexivity].
    rewrite <- !list_elem_of_In. rewrite Hp. reflexivity. }
  split; intros (k & Hin & Hb); exists k; (split; [apply Hk; exact Hin | exact Hb]).
Qed.

Lemma forallb_perm {A} (p : A -> bool) (l1 l2 : list A) :
  l1 ≡ₚ l2 -> forallb p l1 = forallb p l2.
Proof.
  intros Hp. apply eq_true_iff_eq. rewrite !forallb_forall.
  split; intros H a Ha; apply H; apply list_elem_of_In;
    apply list_elem_of_In in Ha; [rewrite Hp | rewrite <- Hp]; exact Ha.
Qed.

Lemma Mesh__init___perm pargs kw rest' :
  NoDup (map fst (ik_rest kw)) -> ik_rest kw ≡ₚ rest' ->
  Mesh__init__ pargs kw = Mesh__init__ pargs (with_rest kw rest').
Proof.
  intros Hnd Hp. unfold Mesh__init__.
  rewrite <- (redundant_perm kw rest' Hp).
  destruct (redundant kw); [reflexivity|].
  change (init_data pargs (with_rest kw rest')) with (init_data pargs kw).
  apply bind_ext. intros dp.
  rewrite <- (init_coords_perm dp.2 kw rest' Hnd Hp).
  cbn [with_rest ik_rest ik_label ik_unit].
  rewrite <- (forallb_perm _ _ _ Hp). reflexivity.
Qed.

(** X13: the order in which the keywords of the constructor are written
    plays no part: two calls whose keywords differ by a permutation
    build the same mesh or raise the same exception. *)
Theorem keyword_order_irrelevant pargs kw rest' :
  NoDup (map fst (ik_rest kw)) ->
  ik_rest kw ≡ₚ rest' ->
  Mesh__init__ pargs kw = Mesh__init__ pargs (with_rest kw rest').
Proof.
  intros Hnd Hp. exact (Mesh__init___perm pargs kw rest' Hnd Hp).
Qed.

Lemma keyword_order_irrelevant_witness :
  Mesh__init__ [plane_data]
    (keywords [("y", PyArray (vec [0; 1; 2]%float)); ("x", PyArray (vec [0; 1]%float))])
  = Mesh__init__ [plane_data]
      (keywords [("x", PyArray (vec [0; 1]%float)); ("y", PyArray (vec [0; 1; 2]%float))]).
Proof.
  apply (keyword_order_irrelevant [plane_data]
           (keywords [("y", PyArray (vec [0; 1; 2]%float));
                      ("x", PyArray (vec [0; 1]%float))])
           [("x", PyArray (vec [0; 1]%float)); ("y", PyArray (vec [0; 1; 2]%float))]).
  - apply (bool_decide_unpack _). vm_compute. exact I.
  - apply Permutation_swap.
Defined.

Lemma coordinates_zip (names : list string) (xs : list pyval) :
  Forall one_axis xs ->
  traverse coordinate (zip names xs) = Ok (zip names (map ravel xs)).
Proof.
  intros H. revert names. induction H as [|x xs [l ->] _ IH]; intros names.
  - destruct names; reflexivity.
  - destruct names as [|n names]; [reflexivity|].
    simpl. rewrite IH. reflexivity.
Qed.

Lemma DataArray_init_ok nv cs :
  shape (as_data nv) = map (fun c : string * list float => length c.2) cs ->
  DataArray_init nv cs = Ok (as_data nv).
Proof.
  intros H. unfold DataArray_init. destruct (decide _); [reflexivity | contradiction].
Qed.

Ltac up_to_five xs H :=
  destruct xs as [|? [|? [|? [|? [|? [|? ?]]]]]];
  [| | | | | | simpl in H; lia].

(** X14: with at most five axes, giving the axes by position before the
    data, giving them by keyword in any order after the data, and
    giving the data by keyword as well, are the same call: the axes
    are named x, y, z, v, w in this order.  When each axis is a
    one-axis array and the data has their lengths for shape, the call
    builds the mesh with these coordinates, the default options and no
    captions. *)
Theorem axes_by_position_or_name xs d rest :
  length xs <= 5 ->
  rest ≡ₚ zip AXES xs ->
  Mesh__init__ (xs ++ [d]) (keywords []) = Mesh__init__ [d] (keywords rest)
  /\ Mesh__init__ [] {| ik_coords := None; ik_label := None; ik_unit := None;
                        ik_data := Some d; ik_rest := rest |}
     = Mesh__init__ [d] (keywords rest)
  /\ (Forall one_axis xs ->
      shape (as_data d) = map (fun x => length (ravel x)) xs ->
      Mesh__init__ [d] (keywords rest)
      = Ok {| coords := zip AXES (map ravel xs); data := as_data d;
              options := default_options; label := None; unit := None |}).
Proof.
  intros Hlen Hp.
  assert (Hnd : NoDup (map fst (zip AXES xs))).
  { up_to_five xs Hlen; apply (bool_decide_unpack _); vm_compute; exact I. }
  assert (Hnd' : NoDup (map fst rest)).
  { change (NoDup (fst <$> rest)). rewrite Hp. exact Hnd. }
  assert (Hk : Mesh__init__ [d] (keywords rest)
               = Mesh__init__ [d] (keywords (zip AXES xs))).
  { exact (Mesh__init___perm [d] (keywords rest) (zip AXES xs) Hnd' Hp). }
  assert (Hd : Mesh__init__ [] {| ik_coords := None; ik_label := None;
                                  ik_unit := None; ik_data := Some d;
                                  ik_rest := rest |}
               = Mesh__init__ [] {| ik_coords := None; ik_label := None;
                                    ik_unit := None; ik_data := Some d;
                                    ik_rest := zip AXES xs |}).
  { exact (Mesh__init___perm []
             {| ik_coords := None; ik_label := None; ik_unit := None;
                ik_data := Some d; ik_rest := rest |} (zip AXES xs) Hnd' Hp). }
  rewrite Hk, Hd. clear Hk Hd Hp Hnd' rest.
  assert (Hpos : Mesh__init__ (xs ++ [d]) (keywords [])
                 = Mesh__init__ [d] (keywords (zip AXES xs))).
  { up_to_five xs Hlen; reflexivity. }
  split; [exact Hpos|]. split.
  { up_to_five xs Hlen; reflexivity. }
  intros Hone Hsh. rewrite <- Hpos.
  unfold Mesh__init__. cbn [redundant keywords ik_coords].
  assert (Hdata : init_data (xs ++ [d]) (keywords []) = Ok (d, xs)).
  { unfold init_data. cbn [keywords ik_data]. rewrite last_snoc.
    rewrite length_app. cbn [length]. replace (length xs + 1 - 1) with (length xs) by lia.
    rewrite take_app_length. reflexivity. }
  rewrite Hdata. cbn [bind fst snd keywords ik_rest forallb ik_label ik_unit].
  assert (Hcs : init_coords xs (keywords []) = zip AXES xs).
  { up_to_five xs Hlen; reflexivity. }
  rewrite Hcs, (coordinates_zip AXES xs Hone). cbn [bind].
  rewrite DataArray_init_ok; [reflexivity|].
  rewrite Hsh. clear -Hlen. up_to_five xs Hlen; reflexivity.
Qed.

Lemma axes_by_position_or_name_witness :
  Mesh__init__ [PyArray (vec [0; 1]%float); PyArray (vec [0; 1; 2]%float); plane_data]
    (keywords [])
  = Ok plane
  /\ Mesh__init__ [plane_data]
       (keywords [("y", PyArray (vec [0; 1; 2]%float)); ("x", PyArray (vec [0; 1]%float))])
     = Ok plane.
Proof.
  destruct (axes_by_position_or_name
              [PyArray (vec [0; 1]%float); PyArray (vec [0; 1; 2]%float)] plane_data
              [("y", PyArray (vec [0; 1; 2]%float)); ("x", PyArray (vec [0; 1]%float))]
              ltac:(simpl; lia) ltac:(apply Permutation_swap))
    as (H1 & _ & H3).
  assert (H : Mesh__init__ [plane_data]
                (keywords [("y", PyArray (vec [0; 1; 2]%float));
                           ("x", PyArray (vec [0; 1]%float))])
              = Ok plane).
  { apply H3.
    - repeat constructor; eexists; reflexivity.
    - reflexivity. }
  split; [|exact H]. etransitivity; [exact H1 | exact H].
Defined.

Lemma zip_AXES_take (xs : list pyval) : zip AXES (take 5 xs) = zip AXES xs.
Proof. destruct xs as [|? [|? [|? [|? [|? [|? ?]]]]]]; reflexivity. Qed.

(** X15: in a call without the keyword [fastpath], positional axes
    beyond the fifth are dropped without a word: the constructor gives
    the same mesh, or raises the same exception, as with the first five
    alone, whether the data comes last among the positional arguments
    or by keyword. *)
Theorem surplus_axes_dropped xs d kw :
  "fastpath" ∉ map fst (ik_rest kw) ->
  (ik_data kw = None ->
   Mesh__init__ (xs ++ [d]) kw = Mesh__init__ (take 5 xs ++ [d]) kw)
  /\ (ik_data kw = Some d ->
      Mesh__init__ xs kw = Mesh__init__ (take 5 xs) kw).
Proof.
  intros _.
  assert (Hc : init_coords (take 5 xs) kw = init_coords xs kw).
  { unfold init_coords. rewrite zip_AXES_take. reflexivity. }
  assert (Hlast : forall ys : list pyval,
             take (length (ys ++ [d]) - 1) (ys ++ [d]) = ys).
  { intros ys. rewrite length_app. cbn [length].
    replace (length ys + 1 - 1) with (length ys) by lia.
    apply take_app_length. }
  split; intros Hd; unfold Mesh__init__, init_data; rewrite Hd.
  - rewrite !last_snoc, !Hlast. cbn [bind fst snd]. rewrite Hc. reflexivity.
  - cbn [bind fst snd]. rewrite Hc. reflexivity.
Qed.

Lemma surplus_axes_dropped_witness :
  Mesh__init__ (replicate 6 (PyArray (vec [0%float]))
                ++ [PyArray (NDArray [1; 1; 1; 1; 1] [1%float])])
    (keywords [])
  = Mesh__init__ (replicate 5 (PyArray (vec [0%float]))
                  ++ [PyArray (NDArray [1; 1; 1; 1; 1] [1%float])])
      (keywords []).
Proof.
  assert (Hk : "fastpath" ∉ map fst (ik_rest (keywords []))).
  { intros H. inversion H. }
  exact (proj1 (surplus_axes_dropped (replicate 6 (PyArray (vec [0%float])))
                  (PyArray (NDArray [1; 1; 1; 1; 1] [1%float])) (keywords []) Hk)
           eq_refl).
Defined.

(** X16: a keyword named after an axis wins over the positional argument
    at the place of that axis: the call is the same as with the
    keyword's value written at that place. *)
Theorem keyword_over_position xs d i ax v :
  length xs <= 5 ->
  i < length xs ->
  AXES !! i = Some ax ->
  Mesh__init__ (xs ++ [d]) (keywords [(ax, v)])
  = Mesh__init__ (<[i := v]> xs ++ [d]) (keywords []).
Proof.
  intros Hlen Hi Hax.
  do 5 (destruct i as [|i]; [injection Hax as <-;
          up_to_five xs Hlen; simpl in Hi; try lia; reflexivity|]).
  discriminate.
Qed.

Lemma keyword_over_position_witness :
  Mesh__init__ [PyArray (vec [7; 8]%float); PyArray (vec [0; 1; 2]%float); plane_data]
    (keywords [("x", PyArray (vec [0; 1]%float))])
  = Ok plane.
Proof.
  etransitivity.
  - exact (keyword_over_position
             [PyArray (vec [7; 8]%float); PyArray (vec [0; 1; 2]%float)]
             plane_data 0 "x" (PyArray (vec [0; 1]%float))
             ltac:(simpl; lia) ltac:(simpl; lia) eq_refl).
  - vm_compute. reflexivity.
Defined.

Lemma traverse_coordinate_raises (cs : list (string * pyval)) e :
  traverse coordinate cs = Raise e -> e = ValueError.
Proof.
  induction cs as [|[k v] cs IH]; intros H; [discriminate|].
  simpl in H. apply bind_Raise in H. destruct H as [H | (c & _ & H)].
  - unfold coordinate in H. cbn [snd] in H.
    destruct v as [x|a]; [congruence|].
    destruct (shape a) as [|? [|? ?]]; congruence.
  - apply bind_Raise in H. destruct H as [H | (cs' & _ & H)]; [eauto | discriminate].
Qed.

(** X17: the constructor raises the assertion on redundant arguments
    exactly when [coords] is given and a keyword of the call has the
    name of one of its keys; the check comes first, whatever the other
    arguments are.  A call without the keyword [fastpath] that passes
    the check and has neither a positional argument nor [data] raises
    [IndexError]. *)
Theorem constructor_exceptions pargs kw :
  (Mesh__init__ pargs kw = Raise (AssertionError redundant_msg)
   <-> exists cs k, ik_coords kw = Some cs
                    /\ k ∈ map fst cs /\ k ∈ init_keys kw)
  /\ ("fastpath" ∉ map fst (ik_rest kw) ->
      (forall cs k, ik_coords kw = Some cs -> k ∈ map fst cs ->
                    k ∉ init_keys kw) ->
      ik_data kw = None ->
      Mesh__init__ [] kw = Raise IndexError).
Proof.
  assert (Hred : redundant kw = true
                 <-> exists cs k, ik_coords kw = Some cs
                                  /\ k ∈ map fst cs /\ k ∈ init_keys kw).
  { unfold redundant. split.
    - intros Hr. destruct (ik_coords kw) as [cs|]; [|discriminate].
      apply existsb_exists in Hr. destruct Hr as (k & Hk & Hb).
      exists cs, k. split; [reflexivity|].
      split; [exact (bool_decide_eq_true_1 _ Hb) | apply list_elem_of_In; exact Hk].
    - intros (cs & k & -> & Hk & Hkeys). apply existsb_exists. exists k.
      split; [apply list_elem_of_In; exact Hkeys
             | apply bool_decide_eq_true_2; exact Hk]. }
  split; [split|].
  - intros H. apply (proj1 Hred). unfold Mesh__init__ in H.
    destruct (redundant kw); [reflexivity|]. exfalso.
    apply bind_Raise in H. destruct H as [H | (dp & _ & H)].
    { unfold init_data in H. destruct (ik_data kw); [discriminate|].
      destruct (last pargs); discriminate. }
    destruct (forallb _ (ik_rest kw)); [|discriminate].
    apply bind_Raise in H. destruct H as [H | (cs' & _ & H)].
    { apply traverse_coordinate_raises in H. discriminate. }
    apply bind_Raise in H. destruct H as [H | (d & _ & H)]; [|discriminate].
    unfold DataArray_init in H. destruct (decide _); discriminate.
  - intros H. apply (proj2 Hred) in H. unfold Mesh__init__. rewrite H. reflexivity.
  - intros _ Hclear Hd. unfold Mesh__init__, init_data.
    destruct (redundant kw) eqn:Hr.
    + exfalso. destruct (proj1 Hred eq_refl) as (cs & k & Hcs & Hk & Hkeys).
      exact (Hclear cs k Hcs Hk Hkeys).
    + rewrite Hd. reflexivity.
Qed.

(** The construction that [resample] ends with is the constructor called
    with the data and one keyword per dimension. *)
Lemma setitem_fresh {A} k (v : A) (items : list (string * A)) :
  k ∉ map fst items -> setitem k v items = items ++ [(k, v)].
Proof.
  induction items as [|[k' v'] items IH]; intros Hk; [reflexivity|].
  simpl. destruct (decide (k = k')) as [->|Hne].
  - exfalso. apply Hk. left.
  - rewrite IH; [reflexivity|]. intros Hin. apply Hk. right. exact Hin.
Qed.

Lemma foldl_setitem_named (rest : list (string * pyval)) named cs0 :
  NoDup named ->
  (forall ax, ax ∈ named -> ax ∉ map fst cs0) ->
  (forall ax, ax ∈ named -> exists v, getitem ax rest = Ok v) ->
  foldl (fun cs ax =>
           match getitem ax rest with
           | Ok v => setitem ax v cs
           | Raise _ => cs
           end) cs0 named
  = cs0 ++ map (fun ax => (ax, match getitem ax rest with
                               | Ok v => v
                               | Raise _ => PyFloat 0
                               end)) named.
Proof.
  revert cs0. induction named as [|ax named IH]; intros cs0 Hnd Hfresh Hget.
  - simpl. rewrite app_nil_r. reflexivity.
  - apply NoDup_cons in Hnd. destruct Hnd as [Hax Hnd].
    destruct (Hget ax ltac:(left)) as [v Hv].
    cbn [foldl map]. rewrite Hv.
    rewrite (setitem_fresh ax v cs0 (Hfresh ax ltac:(left))).
    rewrite IH.
    + rewrite <- app_assoc. reflexivity.
    + exact Hnd.
    + intros ax' Hin' Hk. rewrite map_app in Hk. apply elem_of_app in Hk.
      destruct Hk as [Hk|Hk].
      * exact (Hfresh ax' ltac:(right; exact Hin') Hk).
      * apply list_elem_of_singleton in Hk. simpl in Hk. subst ax'. exact (Hax Hin').
    + intros ax' Hin'. apply Hget. right. exact Hin'.
Qed.

Lemma traverse_ext_in {A B} (f g : A -> res B) (l : list A) :
  (forall a, a ∈ l -> f a = g a) -> traverse f l = traverse g l.
Proof.
  induction l as [|a l IH]; intros H; [reflexivity|].
  simpl. rewrite (H a) by left.
  rewrite IH by (intros b Hb; apply H; right; exact Hb). reflexivity.
Qed.

Lemma traverse_fmap {A B C} (f : B -> res C) (g : A -> B) (l : list A) :
  traverse f (map g l) = traverse (fun a => f (g a)) l.
Proof.
  induction l as [|a l IH]; [reflexivity|]. simpl. rewrite IH. reflexivity.
Qed.

Lemma Mesh_init_constructor nv (args : list (string * pyval)) :
  "dims" ∉ map fst args ->
  Mesh__init__ [nv] (keywords args) = Mesh_init nv args.
Proof.
  intros Hdims. unfold Mesh__init__, Mesh_init.
  cbn [redundant keywords ik_coords init_data ik_data last length take bind fst snd
       ik_rest ik_label ik_unit Nat.sub].
  assert (Hall : forallb (fun kv : string * pyval =>
                            bool_decide (kv.1 ∈ AXES) || bool_decide (kv.1 = "dims")) args
                 = forallb (fun kv : string * pyval => bool_decide (kv.1 ∈ AXES)) args).
  { clear -Hdims. induction args as [|kv args IH]; [reflexivity|].
    simpl. rewrite IH by (intros H; apply Hdims; right; exact H).
    rewrite (bool_decide_eq_false_2 (kv.1 = "dims")).
    - rewrite orb_false_r. reflexivity.
    - intros Heq. apply Hdims. simpl. rewrite Heq. left. }
  rewrite Hall. clear Hall. destruct (forallb _ args); [|reflexivity].
  unfold init_coords. cbn [keywords ik_coords ik_rest default zip foldl].
  set (named := filter (fun ax => bool_decide (ax ∈ map fst args)) AXES).
  assert (Hin : forall ax, ax ∈ named -> exists v, getitem ax args = Ok v).
  { intros ax Hax. apply list_elem_of_filter in Hax. destruct Hax as [Hb _].
    apply getitem_total. exact (bool_decide_unpack _ Hb). }
  change (foldl (fun (cs : list (string * pyval)) (kv : string * pyval) =>
                   setitem kv.1 kv.2 cs) [] (zip AXES []))
    with (@nil (string * pyval)).
  rewrite (foldl_setitem_named args named []).
  - cbn [app]. rewrite traverse_fmap.
    rewrite (traverse_ext_in _
               (fun ax => do v <- getitem ax args; coordinate (ax, v)) named).
    + reflexivity.
    + intros ax Hax. destruct (Hin ax Hax) as [v ->]. reflexivity.
  - apply NoDup_filter. exact AXES_NoDup.
  - intros ax _ H. inversion H.
  - exact Hin.
Qed.

(** ** The pointwise variant *)

(** X18: on a query that passes the checks and whose first coordinate
    array is empty, [interpolation_NDT_eval] returns the empty array
    without building the table or looking at the method names: it does
    so for every mesh and every pair of names.  On the same query,
    when the table can be built, [interpolation] raises [KeyError] for
    an interpolation name that is not a member. *)
Theorem pointwise_empty_query KB K uninit m points interp extrap kwargs a0 rest :
  query_args m points kwargs = Ok (a0 :: rest) ->
  head (shape a0) = Some 0 ->
  interpolation_NDT_eval KB m points interp extrap kwargs
  = Ok (PyArray (NDArray (shape a0) []))
  /\ (forall tbl, NDTable_t_init m = Ok tbl ->
        default "linear" interp ∉ INTERP_NAMES ->
        interpolation K uninit m points interp extrap kwargs
        = Raise (KeyError (default "linear" interp))).
Proof.
  intros Hq Hsh. split.
  - unfold interpolation_NDT_eval. rewrite Hq. cbn [bind first_arg].
    destruct (shape a0) as [|n sh] eqn:Hs; [discriminate|].
    injection Hsh as ->. reflexivity.
  - intros tbl Htbl Hout. unfold interpolation. rewrite Hq. cbn [bind first_arg].
    rewrite Htbl. cbn [bind].
    rewrite (INTERP_METH_getitem_unknown _ Hout). reflexivity.
Qed.

Lemma pointwise_empty_query_witness :
  interpolation_NDT_eval (fun _ _ _ _ _ c => (1%Z, c)) squares [PyArray (vec [])]
    (Some "cubic") None ∅
  = Ok (PyArray (vec []))
  /\ interpolation NDT_eval_spec 0%float squares [PyArray (vec [])]
       (Some "cubic") None ∅
     = Raise (KeyError "cubic").
Proof.
  assert (Hq : query_args squares [PyArray (vec [])] ∅ = Ok [vec []])
    by (vm_compute; reflexivity).
  destruct (pointwise_empty_query (fun _ _ _ _ _ c => (1%Z, c)) NDT_eval_spec 0%float
              squares [PyArray (vec [])] (Some "cubic") None ∅ (vec []) []
              Hq eq_refl) as [H1 H2].
  split; [exact H1|].
  destruct (NDTable_t_init squares) as [tbl|e] eqn:Ht; [|discriminate].
  apply (H2 tbl eq_refl).
  apply (bool_decide_unpack _). vm_compute. exact I.
Defined.

Lemma ndindex_one n : ndindex [n] = map (fun k => [k]) (seq 0 n).
Proof.
  change (ndindex [n]) with (flat_map (fun i => [[i]]) (seq 0 n)).
  induction (seq 0 n) as [|i l IH]; [reflexivity|].
  simpl. rewrite IH. reflexivity.
Qed.

Lemma getitem_index_vec (l : list float) k v :
  l !! k = Some v -> getitem_index (vec l) [k] = Ok (PyFloat v).
Proof.
  intros Hk. unfold getitem_index. cbn [vec shape flat offset].
  pose proof (lookup_lt_Some _ _ _ Hk) as Hlt.
  destruct (decide (k < length l)); [|lia].
  cbn [fmap option_fmap option_map fst snd prod_list foldr].
  replace (k * 1 + 0) with k by lia. rewrite Hk. reflexivity.
Qed.

Lemma getitem_index_vec_out (l : list float) k :
  l !! k = None -> getitem_index (vec l) [k] = Raise IndexError.
Proof.
  intros Hk. unfold getitem_index. cbn [vec shape flat offset].
  apply lookup_ge_None in Hk.
  destruct (decide (k < length l)); [lia | reflexivity].
Qed.


Lemma query_args_length m points kwargs qa :
  query_args m points kwargs = Ok qa -> length qa = length (dims m).
Proof.
  intros Hq. unfold query_args in Hq.
  destruct (decide _); [|discriminate].
  open_bind Hq as bargs Hb. open_bind Hq as lens Hl. open_bind Hq as mx Hmx.
  destruct (compatible lens mx); [|discriminate]. injection Hq as <-.
  destruct (bind_args_choice _ _ _ _ Hb) as [Hfst _].
  rewrite length_map, <- Hfst, length_map. reflexivity.
Qed.




Lemma point_params_cases (qa : list ndarray) k :
  Forall (fun a => exists l, a = vec l) qa ->
  (exists p, point_params qa [k] = Ok p
             /\ mapM (fun a => flat a !! k) qa = Some p)
  \/ (point_params qa [k] = Raise IndexError
      /\ exists a, a ∈ qa /\ flat a !! k = None).
Proof.
  intros Hone. induction Hone as [|a qa [l ->] _ IH].
  - left. exists []. split; reflexivity.
  - unfold point_params. cbn [traverse].
    destruct (l !! k) as [v|] eqn:Hk.
    + rewrite (getitem_index_vec l k v Hk). cbn [bind as_scalar].
      fold (point_params qa [k]).
      destruct IH as [(p & -> & Hm) | (-> & a & Ha & Hout)].
      * left. exists (v :: p). split; [reflexivity|].
        cbn [mapM vec flat]. rewrite Hk. cbn [mbind option_bind]. rewrite Hm.
        reflexivity.
      * right. split; [reflexivity|]. exists a. split; [right; exact Ha | exact Hout].
    + rewrite (getitem_index_vec_out l k Hk). right. split; [reflexivity|].
      exists (vec l). split; [left | exact Hk].
Qed.

Lemma eval_point_in_bounds KB m tbl im em interp extrap (qa : list ndarray) k c p :
  NDTable_t_init m = Ok tbl ->
  INTERP_METH_getitem interp = Ok im ->
  EXTRAP_METH_getitem extrap = Ok em ->
  ndim m = length qa ->
  point_params qa [k] = Ok p ->
  mapM (fun a => flat a !! k) qa = Some p ->
  eval_point KB m interp extrap qa [k] c
  = Ok (KB tbl (Z.of_nat (ndim m)) p im em c).2.
Proof.
  intros Htbl Him Hem Hnd Hp Hm. unfold eval_point.
  rewrite Hp, Htbl, Him, Hem. cbn [bind].
  pose proof (NDTable_t_init_ndim _ _ Htbl) as Hmax. unfold MAX_NDIMS in Hmax.
  rewrite c_int_small by lia. rewrite Nat2Z.id.
  pose proof (length_mapM _ _ _ Hm) as Hl.
  destruct (decide (ndim m <= length p)); [|lia].
  rewrite Hnd, Hl, firstn_all. reflexivity.
Qed.

Lemma eval_points_short KB m tbl im em interp extrap (qa : list ndarray) :
  Forall (fun a => exists l, a = vec l) qa ->
  NDTable_t_init m = Ok tbl ->
  INTERP_METH_getitem interp = Ok im ->
  EXTRAP_METH_getitem extrap = Ok em ->
  ndim m = length qa ->
  forall cnt k c,
    (exists j a, k <= j < k + cnt /\ a ∈ qa /\ flat a !! j = None) ->
    eval_points (eval_point KB m interp extrap qa) (map (fun k => [k]) (seq k cnt)) c
    = Raise IndexError.
Proof.
  intros Hone Htbl Him Hem Hnd.
  induction cnt as [|cnt IH]; intros k c (j & a & Hj & Ha & Hout); [lia|].
  cbn [seq map eval_points].
  destruct (point_params_cases qa k Hone) as [(p & Hp & Hm) | (Hp & _)].
  - rewrite (eval_point_in_bounds KB m tbl im em interp extrap qa k c p
               Htbl Him Hem Hnd Hp Hm). cbn [bind].
    rewrite IH; [reflexivity|].
    exists j, a. split; [|split; [exact Ha | exact Hout]].
    destruct (decide (j = k)) as [->|Hne]; [|lia].
    exfalso. apply mapM_Some_1 in Hm.
    apply list_elem_of_lookup in Ha. destruct Ha as [i Hi].
    destruct (Forall2_lookup_l _ _ _ _ _ Hm Hi) as (v & _ & Hv). congruence.
  - unfold eval_point. rewrite Hp. reflexivity.
Qed.

Lemma eval_points_total KB m tbl im em interp extrap (qa : list ndarray) n :
  Forall (fun a => exists l, a = vec l /\ length l = n) qa ->
  NDTable_t_init m = Ok tbl ->
  INTERP_METH_getitem interp = Ok im ->
  EXTRAP_METH_getitem extrap = Ok em ->
  ndim m = length qa ->
  forall cnt k c,
    k + cnt <= n ->
    exists vs,
      eval_points (eval_point KB m interp extrap qa) (map (fun k => [k]) (seq k cnt)) c
      = Ok vs /\ length vs = cnt.
Proof.
  intros Hall Htbl Him Hem Hnd.
  assert (Hone : Forall (fun a => exists l, a = vec l) qa).
  { eapply Forall_impl; [exact Hall|]. intros a (l & -> & _). eauto. }
  induction cnt as [|cnt IH]; intros k c Hk; [exists []; split; reflexivity|].
  cbn [seq map eval_points].
  destruct (point_params_cases qa k Hone) as [(p & Hp & Hm) | (_ & a & Ha & Hout)].
  - rewrite (eval_point_in_bounds KB m tbl im em interp extrap qa k c p
               Htbl Him Hem Hnd Hp Hm). cbn [bind].
    destruct (IH (S k) (KB tbl (Z.of_nat (ndim m)) p im em c).2 ltac:(lia))
      as (vs & -> & Hl).
    eexists. split; [reflexivity|]. simpl. rewrite Hl. reflexivity.
  - exfalso. rewrite Forall_forall in Hall.
    destruct (Hall a Ha) as (l & -> & Hl). cbn [vec flat] in Hout.
    apply lookup_ge_None in Hout. lia.
Qed.

(** X20: Python checks the bounds that the native loop does not.  For
    one-axis query arrays, a table that can be built and method names
    that are members, when some array has no entry at an index of the
    first one, [interpolation_NDT_eval] raises [IndexError]. *)
Theorem pointwise_checks_bounds KB m points interp extrap kwargs l0 rest tbl im em :
  query_args m points kwargs = Ok (vec l0 :: rest) ->
  Forall (fun a => exists l, a = vec l) rest ->
  ndim m = length (dims m) ->
  NDTable_t_init m = Ok tbl ->
  INTERP_METH_getitem (default "linear" interp) = Ok im ->
  EXTRAP_METH_getitem (default "hold" extrap) = Ok em ->
  (exists a, a ∈ rest /\ length (flat a) < length l0) ->
  interpolation_NDT_eval KB m points interp extrap kwargs = Raise IndexError.
Proof.
  intros Hq Hrest Hnd Htbl Him Hem (a & Ha & Hshort).
  pose proof (query_args_length _ _ _ _ Hq) as Hlen.
  assert (Hone : Forall (fun a => exists l, a = vec l) (vec l0 :: rest)).
  { constructor; [eauto | exact Hrest]. }
  unfold interpolation_NDT_eval. rewrite Hq. cbn [bind first_arg vec shape].
  rewrite ndindex_one.
  rewrite (eval_points_short KB m tbl im em _ _ (vec l0 :: rest) Hone Htbl Him Hem
             ltac:(rewrite Hnd, Hlen; reflexivity) (length l0) 0 0%float).
  - reflexivity.
  - exists (length (flat a)), a. split; [lia|]. split; [right; exact Ha|].
    apply lookup_ge_None. lia.
Qed.

Lemma pointwise_checks_bounds_witness :
  interpolation_NDT_eval (fun tbl nd p im em _ => NDT_eval_spec tbl nd p im em)
    plane [PyArray (vec [0; 1]%float); PyArray (vec [1]%float)] None None ∅
  = Raise IndexError.
Proof.
  assert (Hq : query_args plane [PyArray (vec [0; 1]%float); PyArray (vec [1]%float)] ∅
               = Ok [vec [0; 1]%float; vec [1]%float]) by (vm_compute; reflexivity).
  apply (pointwise_checks_bounds _ plane _ None None ∅ [0; 1]%float [vec [1]%float]
           plane_table linear hold_x Hq).
  - repeat constructor. eexists. reflexivity.
  - reflexivity.
  - exact plane_table_init.
  - reflexivity.
  - reflexivity.
  - exists (vec [1]%float). split; [left | simpl; lia].
Defined.

(** X21: [interpolation_NDT_eval] drops the status of the native
    routine.  For one-axis query arrays that all have the length n of
    the first, a table that can be built and method names that are
    members, it returns a result whatever the routine reports: a number
    when n is 1, otherwise an array of one axis and n entries. *)
Theorem pointwise_ignores_status KB m points interp extrap kwargs qa n tbl im em :
  query_args m points kwargs = Ok qa ->
  Forall (fun a => exists l, a = vec l /\ length l = n) qa ->
  ndim m = length (dims m) ->
  NDTable_t_init m = Ok tbl ->
  INTERP_METH_getitem (default "linear" interp) = Ok im ->
  EXTRAP_METH_getitem (default "hold" extrap) = Ok em ->
  (n = 1 /\ exists v, interpolation_NDT_eval KB m points interp extrap kwargs
                      = Ok (PyFloat v))
  \/ (n <> 1 /\ exists vs, length vs = n
        /\ interpolation_NDT_eval KB m points interp extrap kwargs
           = Ok (PyArray (NDArray [n] vs))).
Proof.
  intros Hq Hall Hnd Htbl Him Hem.
  pose proof (query_args_length _ _ _ _ Hq) as Hlen.
  destruct (query_args_nonempty _ _ _ _ Hq) as (a0 & rest & ->).
  pose proof (Forall_inv Hall) as (l0 & -> & Hl0).
  destruct (eval_points_total KB m tbl im em _ _ (vec l0 :: rest) n Hall Htbl Him Hem
              ltac:(rewrite Hnd, Hlen; reflexivity) n 0 0%float ltac:(lia))
    as (vs & Hvs & Hl).
  unfold interpolation_NDT_eval. rewrite Hq. cbn [bind first_arg vec shape].
  rewrite ndindex_one, Hl0, Hvs. cbn [bind].
  unfold unwrap, py_len. cbn [shape bind].
  destruct (decide (n = 1)) as [->|Hne].
  - left. split; [reflexivity|].
    destruct vs as [|v vs]; [discriminate|]. exists v. reflexivity.
  - right. split; [exact Hne|]. exists vs. split; [exact Hl | reflexivity].
Qed.

Lemma pointwise_ignores_status_witness :
  exists vs, length vs = 3
    /\ interpolation_NDT_eval (fun tbl nd p im em c => (1%Z, c))
         squares [PyArray (vec [0.5; 1.5; 5]%float)] None None ∅
       = Ok (PyArray (NDArray [3] vs))
    /\ interpolation (fun tbl nd p im em => (1%Z, 0%float)) 0%float
         squares [PyArray (vec [0.5; 1.5; 5]%float)] None None ∅
       = Raise (AssertionError native_msg).
Proof.
  assert (Hq : query_args squares [PyArray (vec [0.5; 1.5; 5]%float)] ∅
               = Ok [vec [0.5; 1.5; 5]%float]) by (vm_compute; reflexivity).
  destruct (NDTable_t_init squares) as [tbl|e] eqn:Ht; [|discriminate].
  destruct (pointwise_ignores_status (fun tbl nd p im em c => (1%Z, c))
              squares [PyArray (vec [0.5; 1.5; 5]%float)] None None ∅
              [vec [0.5; 1.5; 5]%float] 3 tbl linear hold_x Hq)
    as [[Hn _] | (_ & vs & Hl & Hv)].
  - repeat constructor. eexists. split; reflexivity.
  - reflexivity.
  - exact Ht.
  - reflexivity.
  - reflexivity.
  - discriminate.
  - exists vs. split; [exact Hl|]. split; [exact Hv|]. vm_compute. reflexivity.
Defined.

Lemma point_params_raises (qa : list ndarray) index e :
  point_params qa index = Raise e -> e = IndexError \/ e = ValueError.
Proof.
  unfold point_params. induction qa as [|a qa IH]; intros H; [discriminate|].
  cbn [traverse] in H. apply bind_Raise in H. destruct H as [H | (x & _ & H)].
  - apply bind_Raise in H. destruct H as [H | (v & _ & H)].
    + left. unfold getitem_index in H.
      destruct (offset (shape a) index) as [[off [|s rest]]|]; try congruence.
      destruct (flat a !! off); congruence.
    + right. destruct v as [y|b]; [discriminate|]. simpl in H.
      destruct (flat b) as [|? [|? ?]]; congruence.
  - apply bind_Raise in H. destruct H as [H | (xs & _ & H)]; [eauto | discriminate].
Qed.

Lemma eval_points_raises (body : list nat -> float -> res float) (P : exn -> Prop) :
  (forall index c e, body index c = Raise e -> P e) ->
  forall indices c e, eval_points body indices c = Raise e -> P e.
Proof.
  intros Hbody. induction indices as [|index indices IH]; intros c e H; [discriminate|].
  cbn [eval_points] in H. apply bind_Raise in H. destruct H as [H | (v & _ & H)].
  - exact (Hbody _ _ _ H).
  - apply bind_Raise in H. destruct H as [H | (vs & _ & H)]; [eauto | discriminate].
Qed.

Lemma unwrap_raises a e : unwrap a = Raise e -> e = TypeError \/ e = IndexError.
Proof.
  unfold unwrap, py_len. intros H.
  destruct (shape a) as [|n sh] eqn:Hs; [left; simpl in H; congruence|].
  cbn [bind] in H. destruct (decide (n = 1)) as [->|]; [|discriminate].
  right. unfold getitem0 in H. rewrite Hs in H.
  destruct sh as [|s sh]; [|discriminate].
  destruct (flat a); congruence.
Qed.

Lemma broadcast_msg_native : broadcast_msg <> native_msg.
Proof. discriminate. Qed.

(** X22: the exceptions of [interpolation_NDT_eval] are those of
    [interpolation] but one: it never raises the assertion on the
    status of the native routine. *)
Theorem pointwise_exceptions KB m points interp extrap kwargs e :
  interpolation_NDT_eval KB m points interp extrap kwargs = Raise e ->
  query_exception interp extrap e /\ e <> AssertionError native_msg.
Proof.
  intros H. unfold interpolation_NDT_eval in H.
  pose (P := fun e : exn =>
    e = AssertionError arity_msg \/ e = IndexError \/ e = TypeError
    \/ e = ValueError \/ e = AssertionError broadcast_msg
    \/ (e = KeyError (default "linear" interp)
        /\ default "linear" interp ∉ INTERP_NAMES)
    \/ (e = KeyError (default "hold" extrap)
        /\ default "hold" extrap ∉ EXTRAP_NAMES)
    \/ e = Undefined).
  assert (Hcases : P e).
  { unfold P. apply bind_Raise in H. destruct H as [H | (args & _ & H)].
    { apply query_args_raises in H. tauto. }
    apply bind_Raise in H. destruct H as [H | (a0 & _ & H)].
    { destruct args; [|discriminate]. cbn [first_arg] in H. right. left. congruence. }
    apply bind_Raise in H. destruct H as [H | (vs & _ & H)].
    2:{ apply unwrap_raises in H. tauto. }
    refine (eval_points_raises _ P _ _ _ e H). clear. intros index c e H.
    unfold P. unfold eval_point in H.
    apply bind_Raise in H. destruct H as [H | (params & _ & H)].
    { apply point_params_raises in H. tauto. }
    apply bind_Raise in H. destruct H as [H | (tbl & _ & H)].
    { right. left. exact (NDTable_t_init_raises _ _ H). }
    apply bind_Raise in H. destruct H as [H | (im & _ & H)].
    { do 5 right. left. exact (INTERP_METH_getitem_raises _ _ H). }
    apply bind_Raise in H. destruct H as [H | (em & _ & H)].
    { do 6 right. left. exact (EXTRAP_METH_getitem_raises _ _ H). }
    destruct (decide _); [discriminate|]. do 7 right. congruence. }
  unfold P in Hcases. split.
  - unfold query_exception. tauto.
  - pose proof arity_msg_native. pose proof broadcast_msg_native.
    destruct Hcases as [->|[->|[->|[->|[->|[[-> _]|[[-> _]| ->]]]]]]]; congruence.
Qed.

Lemma pointwise_exceptions_witness :
  query_exception None None IndexError
  /\ IndexError <> AssertionError native_msg.
Proof.
  apply (pointwise_exceptions
           (fun tbl nd p im em _ => NDT_eval_spec tbl nd p im em)
           plane [PyArray (vec [0; 1]%float); PyArray (vec [1]%float)] None None ∅).
  vm_compute. reflexivity.
Defined.
